(** * Plane geometry of [PlaneAndLines.py]

    A shallow embedding of the analytic-geometry computations carried out by
    [PlaneExplainerScene] (general form, normal form, angle between planes,
    line/plane intersection, point-to-plane distance) and of the
    variable-to-colour table [VAR_COLORS].

    Python floats and numpy [float64] arrays are idealised as real numbers:
    every statement below is a statement of exact real arithmetic about the
    formulas the script evaluates.  Rendering calls (axes, surfaces, arrows,
    labels) carry no geometry of their own and are left out. *)

From Stdlib Require Import Reals Lra List String.
Import ListNotations.
Open Scope R_scope.

(** ** Python outcomes: a call either returns a value or raises *)

Inductive PyException : Type :=
| KeyError (key : string)
| ZeroDivisionError.

Inductive outcome (A : Type) : Type :=
| Returned (a : A)
| Raised (e : PyException).
Arguments Returned {A} a.
Arguments Raised {A} e.

Definition bind {A B : Type} (m : outcome A) (k : A -> outcome B) : outcome B :=
  match m with
  | Returned a => k a
  | Raised e => Raised e
  end.

Notation "x <- m ;; k" := (bind m (fun x => k))
  (at level 61, m at next level, right associativity).

(** [x / y] on Python scalars raises on a zero divisor. *)
Definition py_div (x y : R) : outcome R :=
  if Req_dec_T y 0 then Raised ZeroDivisionError else Returned (x / y).

(** ** numpy arrays of three floats *)

Record Vec3 : Type := mkVec3 { vx : R; vy : R; vz : R }.

Definition vadd (u v : Vec3) : Vec3 :=
  mkVec3 (vx u + vx v) (vy u + vy v) (vz u + vz v).

Definition vsub (u v : Vec3) : Vec3 :=
  mkVec3 (vx u - vx v) (vy u - vy v) (vz u - vz v).

Definition vneg (u : Vec3) : Vec3 :=
  mkVec3 (- vx u) (- vy u) (- vz u).

(** [k * v] *)
Definition vscale (k : R) (v : Vec3) : Vec3 :=
  mkVec3 (k * vx v) (k * vy v) (k * vz v).

(** [v / k]; numpy array division never raises. *)
Definition vdiv (v : Vec3) (k : R) : Vec3 :=
  mkVec3 (vx v / k) (vy v / k) (vz v / k).

(** [np.dot] *)
Definition dot (u v : Vec3) : R :=
  vx u * vx v + vy u * vy v + vz u * vz v.

(** [np.cross] *)
Definition cross (u v : Vec3) : Vec3 :=
  mkVec3 (vy u * vz v - vz u * vy v)
         (vz u * vx v - vx u * vz v)
         (vx u * vy v - vy u * vx v).

(** [np.linalg.norm] *)
Definition norm (u : Vec3) : R := sqrt (dot u u).

(** [np.clip(x, lo, hi)] *)
Definition clip (x lo hi : R) : R := Rmin (Rmax x lo) hi.

(** ** The in-plane basis (lines 182-185, repeated at 344-347)

    [arbitrary = [1,0,0] if abs(n[0]) < 0.9 else [0,1,0]] *)
Definition arbitrary_axis (n : Vec3) : Vec3 :=
  if Rlt_dec (Rabs (vx n)) 0.9 then mkVec3 1 0 0 else mkVec3 0 1 0.

(** [e1 = np.cross(n, arbitrary); e1 = e1 / (np.linalg.norm(e1) + 1e-12)] *)
Definition basis_e1 (n : Vec3) : Vec3 :=
  let e1 := cross n (arbitrary_axis n) in
  vdiv e1 (norm e1 + 1e-12).

(** [e2 = np.cross(n, e1)] *)
Definition basis_e2 (n : Vec3) : Vec3 := cross n (basis_e1 n).

(** A unit vector whose first component sits exactly on the 0.9 threshold. *)
Definition threshold_normal : Vec3 := mkVec3 0.9 (sqrt 0.19) 0.

(** ** [make_plane_general] (lines 167-189) *)

Record GeneralPlane : Type := mkGeneralPlane {
  gp_normal : Vec3;
  gp_point_on_plane : Vec3;
  gp_n : Vec3;
  gp_arbitrary : Vec3;
  gp_e1 : Vec3;
  gp_e2 : Vec3
}.

(** Lines 169-176: the point on the plane. *)
Definition general_point_on_plane (a b c d : R) : outcome Vec3 :=
  if Rlt_dec 1e-6 (Rabs a) then
    x <- py_div (- d) a ;; Returned (mkVec3 x 0 0)
  else if Rlt_dec 1e-6 (Rabs b) then
    y <- py_div (- d) b ;; Returned (mkVec3 0 y 0)
  else if Rlt_dec 1e-6 (Rabs c) then
    z <- py_div (- d) c ;; Returned (mkVec3 0 0 z)
  else Returned (mkVec3 0 0 0).

(** The value lines 169-176 leave in [point_on_plane] when none of the three
    scalar divisions raises. *)
Definition intercept_point (a b c d : R) : Vec3 :=
  if Rlt_dec 1e-6 (Rabs a) then mkVec3 (- d / a) 0 0
  else if Rlt_dec 1e-6 (Rabs b) then mkVec3 0 (- d / b) 0
  else if Rlt_dec 1e-6 (Rabs c) then mkVec3 0 0 (- d / c)
  else mkVec3 0 0 0.

Definition make_plane_general (a b c d : R) : outcome GeneralPlane :=
  let normal := mkVec3 a b c in
  point_on_plane <- general_point_on_plane a b c d ;;
  let n := vdiv normal (norm normal + 1e-12) in
  Returned
    {| gp_normal := normal;
       gp_point_on_plane := point_on_plane;
       gp_n := n;
       gp_arbitrary := arbitrary_axis n;
       gp_e1 := basis_e1 n;
       gp_e2 := basis_e2 n |}.

(** The closure [plane_point(u, v)] of lines 187-189. *)
Definition plane_point (g : GeneralPlane) (u v : R) : Vec3 :=
  vadd (vadd (gp_point_on_plane g) (vscale (u * 3) (gp_e1 g)))
       (vscale (v * 3) (gp_e2 g)).

(** The left-hand side [a x + b y + c z + d] of the general equation. *)
Definition plane_lhs (a b c d : R) (q : Vec3) : R :=
  a * vx q + b * vy q + c * vz q + d.

(** ** Frame predicates *)

Definition pairwise_orthogonal (n e1 e2 : Vec3) : Prop :=
  dot e1 e2 = 0 /\ dot e1 n = 0 /\ dot e2 n = 0.

(** Unit length up to the [1e-12] guard of the normalisations. *)
Definition near_unit (v : Vec3) : Prop := 1 - 2e-6 < norm v <= 1.

(** ** [make_plane_normal_form] (lines 331-348) *)

Record NormalFormPlane : Type := mkNormalFormPlane {
  nf_normal_unit : Vec3;
  nf_p_point : Vec3;
  nf_e1 : Vec3;
  nf_e2 : Vec3
}.

Definition make_plane_normal_form (l m n p : R) : NormalFormPlane :=
  let normal := mkVec3 l m n in
  let norm_len := norm normal in
  let normal' := if Req_dec_T norm_len 0 then mkVec3 0 0 1 else normal in
  let norm_len' := if Req_dec_T norm_len 0 then 1 else norm_len in
  let normal_unit := vdiv normal' norm_len' in
  let p_point := vscale p normal_unit in
  {| nf_normal_unit := normal_unit;
     nf_p_point := p_point;
     nf_e1 := basis_e1 normal_unit;
     nf_e2 := basis_e2 normal_unit |}.

(** ** [make_angle_between_planes_example] (lines 404-445)

    [planes_theta] is the computation of lines 406, 410, 444 and 445 with the
    two literal normals as arguments. *)
Definition planes_theta (n1 n2 : Vec3) : R :=
  let n1_unit := vdiv n1 (norm n1) in
  let n2_unit := vdiv n2 (norm n2) in
  let dot_ := dot n1_unit n2_unit in
  acos (clip dot_ (-1) 1).

Definition example_n1 : Vec3 := mkVec3 1 0.8 0.2.
Definition example_n2 : Vec3 := mkVec3 0.2 (-1.0) 0.6.

Definition make_angle_between_planes_example_theta : R :=
  planes_theta example_n1 example_n2.

(** ** [make_line_plane_angle_example] (lines 490-520)

    [line_plane_intersect] is the computation of lines 515-520 with the
    literal plane and line as arguments. *)
Definition line_plane_intersect
    (normal plane_point0 line_start v : Vec3) : outcome Vec3 :=
  let denom := dot normal v in
  if Rlt_dec 1e-6 (Rabs denom) then
    let t := - dot normal (vsub line_start plane_point0) / denom in
    Returned (vadd line_start (vscale t v))
  else
    Returned line_start.

Definition example_plane_point : Vec3 := mkVec3 0.0 0.0 0.0.
Definition example_normal : Vec3 := mkVec3 0.2 0.3 1.0.
Definition example_v : Vec3 := mkVec3 1.0 0.8 0.6.
Definition example_line_start : Vec3 := mkVec3 (-2.0) (-1.2) (-1.5).

Definition make_line_plane_angle_example_intersect : outcome Vec3 :=
  line_plane_intersect example_normal example_plane_point
                       example_line_start example_v.

(** ** [make_point_to_plane_distance_example] (lines 576-628) *)

Record DistanceExample : Type := mkDistanceExample {
  de_numerator : R;
  de_denom : R;
  de_dist_signed : R;
  de_Q : Vec3;
  de_value : R
}.

(** Lines 605-609 and the number formatted at line 628, with the literal
    plane and point as arguments. *)
Definition point_to_plane (a b c d : R) (P : Vec3) : DistanceExample :=
  let normal := mkVec3 a b c in
  let numerator := a * vx P + b * vy P + c * vz P + d in
  let denom := a * a + b * b + c * c in
  let dist_signed := numerator / (sqrt denom + 1e-12) in
  let factor := numerator / (denom + 1e-12) in
  let Q := vsub P (vscale factor normal) in
  {| de_numerator := numerator;
     de_denom := denom;
     de_dist_signed := dist_signed;
     de_Q := Q;
     de_value := Rabs numerator / sqrt denom |}.

Definition make_point_to_plane_distance_example : DistanceExample :=
  point_to_plane 1.2 (-0.6) 0.8 (-1.0) (mkVec3 2.2 1.1 1.8).

(** [f"{x:.3f}"] prints the decimal [k/1000] exactly when [x] rounds to it. *)
Definition shows_as_3f (x : R) (k : Z) : Prop :=
  IZR k / 1000 - 0.0005 <= x < IZR k / 1000 + 0.0005.

(** ** The colour table (lines 27-37) *)

Inductive Color : Type :=
| RED | BLUE | GREEN | ORANGE | MAROON | TEAL | PURPLE | GOLD | WHITE | YELLOW.

Definition VAR_COLORS : list (string * Color) :=
  [ ("a"%string, RED);
    ("b"%string, BLUE);
    ("c"%string, GREEN);
    ("d"%string, ORANGE);
    ("l"%string, MAROON);
    ("m"%string, TEAL);
    ("n"%string, PURPLE);
    ("p"%string, GOLD);
    ("x0"%string, WHITE) ].

(** [dict.get]-style search of a dict literal, in insertion order. *)
Fixpoint dict_find (tbl : list (string * Color)) (key : string) : option Color :=
  match tbl with
  | [] => None
  | (k, v) :: rest => if String.eqb k key then Some v else dict_find rest key
  end.

(** The subscript [tbl[key]]: raises [KeyError] on a missing key. *)
Definition dict_getitem (tbl : list (string * Color)) (key : string)
  : outcome Color :=
  match dict_find tbl key with
  | Some v => Returned v
  | None => Raised (KeyError key)
  end.

Definition dict_keys (tbl : list (string * Color)) : list string :=
  map fst tbl.

(** The token-to-colour dict literals the scene builds, each entry
    [tok: VAR_COLORS[key]] evaluated left to right. *)
Fixpoint token_color_map (entries : list (string * string))
  : outcome (list (string * Color)) :=
  match entries with
  | [] => Returned []
  | (tok, key) :: rest =>
      col <- dict_getitem VAR_COLORS key ;;
      m <- token_color_map rest ;;
      Returned ((tok, col) :: m)
  end.

Definition entries_abc : list (string * string) :=
  [ ("a", "a"); ("b", "b"); ("c", "c") ]%string.

Definition entries_abcd : list (string * string) :=
  [ ("a", "a"); ("b", "b"); ("c", "c"); ("d", "d") ]%string.

Definition entries_lmnp : list (string * string) :=
  [ ("l", "l"); ("m", "m"); ("n", "n"); ("p", "p") ]%string.

(** Labels placed in the 3D scene: [n_label] (220-222), the normal-form
    [label] (366) and the distance [formula] (626). *)
Definition label_sites : list (list (string * string)) :=
  [ entries_abc; entries_lmnp; entries_abcd ].

(** Right-hand equation text: lines 237, 251, 302, 314, 375, 387 and 639. *)
Definition text_sites : list (list (string * string)) :=
  [ entries_abcd; entries_abcd; entries_abc; entries_abc;
    entries_lmnp; entries_lmnp; entries_abcd ].

(** ** Further parts of the scene

    Where the script divides by a norm with no [1e-12] added, numpy yields
    nan for a zero norm; the statements about those places assume the norm
    is not zero. *)

(** The arrow of lines 205-209: [start = point_on_plane + LEFT*2.2],
    [end = start + normal/np.linalg.norm(normal)*1.6].  [shift] stands for
    [LEFT*2.2]. *)
Definition general_normal_arrow (shift : Vec3) (g : GeneralPlane)
  : Vec3 * Vec3 :=
  let start := vadd (gp_point_on_plane g) shift in
  (start,
   vadd start (vscale 1.6 (vdiv (gp_normal g) (norm (gp_normal g))))).

(** [make_plane_intercept_form] (lines 263-271): the upper ends of the three
    axis ranges (each range starts at -1) and the three intercept points. *)
Record InterceptPlane : Type := mkInterceptPlane {
  ip_x_max : R;
  ip_y_max : R;
  ip_z_max : R;
  ip_A : Vec3;
  ip_B : Vec3;
  ip_C : Vec3
}.

Definition make_plane_intercept_form (a b c : R) : InterceptPlane :=
  {| ip_x_max := Rmax a 4 + 1;
     ip_y_max := Rmax b 4 + 1;
     ip_z_max := Rmax c 4 + 1;
     ip_A := mkVec3 a 0 0;
     ip_B := mkVec3 0 b 0;
     ip_C := mkVec3 0 0 c |}.

(** A point of the plane through the triangle's three corners. *)
Definition triangle_point (g : InterceptPlane) (s t : R) : Vec3 :=
  vadd (ip_A g)
       (vadd (vscale s (vsub (ip_B g) (ip_A g)))
             (vscale t (vsub (ip_C g) (ip_A g)))).

(** The left-hand side [x/a + y/b + z/c] of the intercept form. *)
Definition intercept_lhs (a b c : R) (q : Vec3) : R :=
  vx q / a + vy q / b + vz q / c.

(** The closure [plane_point(u, v)] of lines 342-348. *)
Definition normal_form_plane_point (g : NormalFormPlane) (u v : R) : Vec3 :=
  vadd (vadd (nf_p_point g) (vscale 3 (vscale u (nf_e1 g))))
       (vscale 3 (vscale v (nf_e2 g))).

(** The basis as the example scenes write it (414-416, 419-421, 494-496,
    588-590): [e1 /= np.linalg.norm(e1)], without the [1e-12]. *)
Definition example_e1 (n : Vec3) : Vec3 :=
  let e1 := cross n (arbitrary_axis n) in
  vdiv e1 (norm e1).

Definition example_e2 (n : Vec3) : Vec3 := cross n (example_e1 n).

(** [plane1], [plane2] (k = 2.7) and [plane_p] (k = 3) of the example
    scenes, with the normal, the point and the factor as arguments. *)
Definition example_plane (n p0 : Vec3) (k u v : R) : Vec3 :=
  let n_unit := vdiv n (norm n) in
  vadd (vadd p0 (vscale k (vscale u (example_e1 n_unit))))
       (vscale k (vscale v (example_e2 n_unit))).

(** Line 536: [v_proj = v - np.dot(normal_unit, v) * normal_unit]. *)
Definition v_proj (normal v : Vec3) : Vec3 :=
  let normal_unit := vdiv normal (norm normal) in
  vsub v (vscale (dot normal_unit v) normal_unit).

(** Line 538: the vector from the start to the end of [proj_arrow]. *)
Definition proj_arrow_vector (normal v : Vec3) : Vec3 :=
  vscale 1.6 (vdiv (v_proj normal v) (norm (v_proj normal v))).

(** Lines 580-585: the point on the plane of the distance scene; the last
    branch divides by [c] with no test. *)
Definition distance_p0 (a b c d : R) : outcome Vec3 :=
  if Rlt_dec 1e-6 (Rabs a) then
    x <- py_div (- d) a ;; Returned (mkVec3 x 0 0)
  else if Rlt_dec 1e-6 (Rabs b) then
    y <- py_div (- d) b ;; Returned (mkVec3 0 y 0)
  else
    z <- py_div (- d) c ;; Returned (mkVec3 0 0 z).

(** * Properties *)

(** ** Vector algebra *)

Lemma vec3_eq (u v : Vec3) :
  vx u = vx v -> vy u = vy v -> vz u = vz v -> u = v.
Proof. destruct u, v; simpl; intros; subst; reflexivity. Qed.

Lemma dot_comm (u v : Vec3) : dot u v = dot v u.
Proof. unfold dot; ring. Qed.

Lemma dot_vadd_r (w u v : Vec3) : dot w (vadd u v) = dot w u + dot w v.
Proof. unfold dot, vadd; simpl; ring. Qed.

Lemma dot_vscale_r (w : Vec3) (k : R) (u : Vec3) :
  dot w (vscale k u) = k * dot w u.
Proof. unfold dot, vscale; simpl; ring. Qed.

Lemma dot_vdiv_r (w u : Vec3) (k : R) : dot w (vdiv u k) = dot w u / k.
Proof. unfold dot, vdiv, Rdiv; simpl; ring. Qed.

Lemma dot_vdiv_l (w u : Vec3) (k : R) : dot (vdiv u k) w = dot u w / k.
Proof. unfold dot, vdiv, Rdiv; simpl; ring. Qed.

Lemma dot_cross_l (u v : Vec3) : dot u (cross u v) = 0.
Proof. unfold dot, cross; simpl; ring. Qed.

Lemma dot_cross_r (u v : Vec3) : dot v (cross u v) = 0.
Proof. unfold dot, cross; simpl; ring. Qed.

Lemma cross_vdiv_l (u v : Vec3) (k : R) :
  cross (vdiv u k) v = vdiv (cross u v) k.
Proof. apply vec3_eq; unfold cross, vdiv, Rdiv; simpl; ring. Qed.

Lemma dot_self_nonneg (u : Vec3) : 0 <= dot u u.
Proof. unfold dot; nra. Qed.

Lemma norm_nonneg (u : Vec3) : 0 <= norm u.
Proof. apply sqrt_pos. Qed.

Lemma norm_sqr (u : Vec3) : norm u * norm u = dot u u.
Proof. apply sqrt_sqrt, dot_self_nonneg. Qed.

Lemma guard_pos (u : Vec3) : 0 < norm u + 1e-12.
Proof. pose proof (norm_nonneg u); lra. Qed.

Lemma Rabs_guard_nonzero (eps x : R) : 0 <= eps -> eps < Rabs x -> x <> 0.
Proof. intros Heps Hx ->. rewrite Rabs_R0 in Hx. lra. Qed.

(** The in-plane basis is orthogonal to whatever multiple of [N] it is
    computed from. *)
Lemma basis_e1_orth (N : Vec3) (s : R) : dot N (basis_e1 (vdiv N s)) = 0.
Proof.
  unfold basis_e1. cbv zeta.
  rewrite dot_vdiv_r, cross_vdiv_l, dot_vdiv_r, dot_cross_l.
  unfold Rdiv; ring.
Qed.

Lemma basis_e2_orth (N : Vec3) (s : R) : dot N (basis_e2 (vdiv N s)) = 0.
Proof.
  unfold basis_e2. rewrite cross_vdiv_l, dot_vdiv_r, dot_cross_l.
  unfold Rdiv; ring.
Qed.

(** ** [make_plane_general] *)

Lemma py_div_guarded (x y : R) :
  1e-6 < Rabs y -> py_div x y = Returned (x / y).
Proof.
  intros Hy. unfold py_div.
  destruct (Req_dec_T y 0) as [E | _]; [ | reflexivity ].
  exfalso. revert E. apply (Rabs_guard_nonzero 1e-6); [ lra | exact Hy ].
Qed.

Lemma general_point_on_plane_returns (a b c d : R) :
  general_point_on_plane a b c d = Returned (intercept_point a b c d).
Proof.
  unfold general_point_on_plane, intercept_point.
  destruct (Rlt_dec 1e-6 (Rabs a)) as [Ha | Ha].
  { rewrite py_div_guarded by exact Ha. reflexivity. }
  destruct (Rlt_dec 1e-6 (Rabs b)) as [Hb | Hb].
  { rewrite py_div_guarded by exact Hb. reflexivity. }
  destruct (Rlt_dec 1e-6 (Rabs c)) as [Hc | Hc].
  { rewrite py_div_guarded by exact Hc. reflexivity. }
  reflexivity.
Qed.

Lemma make_plane_general_returns (a b c d : R) :
  exists g, make_plane_general a b c d = Returned g
    /\ gp_normal g = mkVec3 a b c
    /\ gp_point_on_plane g = intercept_point a b c d
    /\ gp_n g = vdiv (mkVec3 a b c) (norm (mkVec3 a b c) + 1e-12)
    /\ gp_arbitrary g = arbitrary_axis (gp_n g)
    /\ gp_e1 g = basis_e1 (gp_n g)
    /\ gp_e2 g = basis_e2 (gp_n g).
Proof.
  unfold make_plane_general. cbv zeta.
  rewrite general_point_on_plane_returns. simpl.
  eexists. split; [ reflexivity | ]. simpl. repeat split; reflexivity.
Qed.

Lemma intercept_point_on_plane (a b c d : R) :
  1e-6 < Rabs a \/ 1e-6 < Rabs b \/ 1e-6 < Rabs c ->
  plane_lhs a b c d (intercept_point a b c d) = 0.
Proof.
  intros H. unfold intercept_point, plane_lhs.
  destruct (Rlt_dec 1e-6 (Rabs a)) as [Ha | Ha].
  { simpl. apply (Rabs_guard_nonzero 1e-6) in Ha; [ field; exact Ha | lra ]. }
  destruct (Rlt_dec 1e-6 (Rabs b)) as [Hb | Hb].
  { simpl. apply (Rabs_guard_nonzero 1e-6) in Hb; [ field; exact Hb | lra ]. }
  destruct (Rlt_dec 1e-6 (Rabs c)) as [Hc | Hc].
  { simpl. apply (Rabs_guard_nonzero 1e-6) in Hc; [ field; exact Hc | lra ]. }
  exfalso. destruct H as [H | [H | H]]; contradiction.
Qed.

Lemma plane_lhs_plane_point (a b c d : R) (g : GeneralPlane) (u v : R) :
  plane_lhs a b c d (plane_point g u v)
  = plane_lhs a b c d (gp_point_on_plane g)
    + u * 3 * dot (mkVec3 a b c) (gp_e1 g)
    + v * 3 * dot (mkVec3 a b c) (gp_e2 g).
Proof. unfold plane_lhs, plane_point, vadd, vscale, dot; simpl; ring. Qed.

Lemma Rabs_guard_pos (x : R) : 1e-6 < x -> 1e-6 < Rabs x.
Proof. intros Hx. rewrite Rabs_right; lra. Qed.

(** C10: when one of a, b, c passes the 1e-6 guard, [make_plane_general]
    returns, its e1 and e2 are orthogonal to (a,b,c), its point_on_plane
    lies on the plane, and hence every surface point
    plane_point(u,v) = point_on_plane + 3u e1 + 3v e2 satisfies
    a x + b y + c z + d = 0 exactly. *)
Theorem plane_point_satisfies_equation (a b c d : R) :
  1e-6 < Rabs a \/ 1e-6 < Rabs b \/ 1e-6 < Rabs c ->
  exists g, make_plane_general a b c d = Returned g
    /\ dot (mkVec3 a b c) (gp_e1 g) = 0
    /\ dot (mkVec3 a b c) (gp_e2 g) = 0
    /\ plane_lhs a b c d (gp_point_on_plane g) = 0
    /\ forall u v : R,
         plane_point g u v
         = vadd (vadd (gp_point_on_plane g) (vscale (u * 3) (gp_e1 g)))
                (vscale (v * 3) (gp_e2 g))
         /\ plane_lhs a b c d (plane_point g u v) = 0.
Proof.
  intros H.
  destruct (make_plane_general_returns a b c d)
    as (g & Hrun & _ & Hpt & Hn & _ & He1 & He2).
  assert (O1 : dot (mkVec3 a b c) (gp_e1 g) = 0).
  { rewrite He1, Hn. apply basis_e1_orth. }
  assert (O2 : dot (mkVec3 a b c) (gp_e2 g) = 0).
  { rewrite He2, Hn. apply basis_e2_orth. }
  assert (P0 : plane_lhs a b c d (gp_point_on_plane g) = 0).
  { rewrite Hpt. apply intercept_point_on_plane, H. }
  exists g. repeat split; try assumption.
  rewrite plane_lhs_plane_point, O1, O2, P0. ring.
Qed.

Lemma plane_point_satisfies_equation_witness :
  exists g, make_plane_general 2 (-1) 1.2 (-1.5) = Returned g
    /\ dot (mkVec3 2 (-1) 1.2) (gp_e1 g) = 0
    /\ dot (mkVec3 2 (-1) 1.2) (gp_e2 g) = 0
    /\ plane_lhs 2 (-1) 1.2 (-1.5) (gp_point_on_plane g) = 0
    /\ forall u v : R,
         plane_point g u v
         = vadd (vadd (gp_point_on_plane g) (vscale (u * 3) (gp_e1 g)))
                (vscale (v * 3) (gp_e2 g))
         /\ plane_lhs 2 (-1) 1.2 (-1.5) (plane_point g u v) = 0.
Proof.
  apply (plane_point_satisfies_equation 2 (-1) 1.2 (-1.5)).
  left. apply Rabs_guard_pos. lra.
Defined.

(** C4 as stated fails: (1e-7, 0, 0) is not the zero vector, yet no
    coefficient passes the guard, the constructor returns the origin, and the
    origin does not satisfy 1e-7 x + 1 = 0. *)
Lemma general_point_below_guard :
  mkVec3 1e-7 0 0 <> mkVec3 0 0 0
  /\ general_point_on_plane 1e-7 0 0 1 = Returned (mkVec3 0 0 0)
  /\ (exists g, make_plane_general 1e-7 0 0 1 = Returned g
        /\ gp_point_on_plane g = mkVec3 0 0 0)
  /\ plane_lhs 1e-7 0 0 1 (mkVec3 0 0 0) = 1.
Proof.
  assert (Hp : intercept_point 1e-7 0 0 1 = mkVec3 0 0 0).
  { unfold intercept_point.
    destruct (Rlt_dec 1e-6 (Rabs 1e-7)) as [Ha | _].
    { rewrite Rabs_right in Ha; lra. }
    destruct (Rlt_dec 1e-6 (Rabs 0)) as [Hb | _].
    { rewrite Rabs_R0 in Hb; lra. }
    reflexivity. }
  split; [ | split; [ | split ] ].
  - intros E. apply (f_equal vx) in E. simpl in E. lra.
  - rewrite general_point_on_plane_returns, Hp. reflexivity.
  - destruct (make_plane_general_returns 1e-7 0 0 1) as (g & Hrun & _ & Hpt & _).
    exists g. split; [ exact Hrun | ]. rewrite Hpt. exact Hp.
  - unfold plane_lhs; simpl; ring.
Qed.

(** C4 (amended): when one of a, b, c has magnitude above 1e-6,
    [make_plane_general] returns the axis intercept of the first such
    coefficient, that point satisfies a x + b y + c z + d = 0, and for
    a=2, b=-1, c=1.2, d=-1.5 it is (0.75, 0, 0). *)
Theorem general_point_first_intercept (a b c d : R) :
  1e-6 < Rabs a \/ 1e-6 < Rabs b \/ 1e-6 < Rabs c ->
  exists g, make_plane_general a b c d = Returned g
    /\ (1e-6 < Rabs a -> gp_point_on_plane g = mkVec3 (- d / a) 0 0)
    /\ (~ 1e-6 < Rabs a -> 1e-6 < Rabs b ->
        gp_point_on_plane g = mkVec3 0 (- d / b) 0)
    /\ (~ 1e-6 < Rabs a -> ~ 1e-6 < Rabs b ->
        gp_point_on_plane g = mkVec3 0 0 (- d / c))
    /\ plane_lhs a b c d (gp_point_on_plane g) = 0
    /\ (a = 2 -> b = -1 -> c = 1.2 -> d = -1.5 ->
        gp_point_on_plane g = mkVec3 0.75 0 0).
Proof.
  intros H.
  destruct (make_plane_general_returns a b c d) as (g & Hrun & _ & Hpt & _).
  assert (Ha : 1e-6 < Rabs a -> gp_point_on_plane g = mkVec3 (- d / a) 0 0).
  { intros G. rewrite Hpt. unfold intercept_point.
    destruct (Rlt_dec 1e-6 (Rabs a)); [ reflexivity | contradiction ]. }
  exists g. split; [ exact Hrun | ]. split; [ exact Ha | ].
  split; [ | split; [ | split ] ].
  - intros Na Gb. rewrite Hpt. unfold intercept_point.
    destruct (Rlt_dec 1e-6 (Rabs a)); [ contradiction | ].
    destruct (Rlt_dec 1e-6 (Rabs b)); [ reflexivity | contradiction ].
  - intros Na Nb. rewrite Hpt. unfold intercept_point.
    destruct (Rlt_dec 1e-6 (Rabs a)); [ contradiction | ].
    destruct (Rlt_dec 1e-6 (Rabs b)); [ contradiction | ].
    destruct (Rlt_dec 1e-6 (Rabs c)); [ reflexivity | ].
    exfalso. destruct H as [H | [H | H]]; contradiction.
  - rewrite Hpt. apply intercept_point_on_plane, H.
  - intros -> -> -> ->. rewrite Ha.
    + apply vec3_eq; simpl; lra.
    + apply Rabs_guard_pos. lra.
Qed.

Lemma general_point_first_intercept_witness :
  exists g, make_plane_general 2 (-1) 1.2 (-1.5) = Returned g
    /\ (1e-6 < Rabs 2 -> gp_point_on_plane g = mkVec3 (- -1.5 / 2) 0 0)
    /\ (~ 1e-6 < Rabs 2 -> 1e-6 < Rabs (-1) ->
        gp_point_on_plane g = mkVec3 0 (- -1.5 / -1) 0)
    /\ (~ 1e-6 < Rabs 2 -> ~ 1e-6 < Rabs (-1) ->
        gp_point_on_plane g = mkVec3 0 0 (- -1.5 / 1.2))
    /\ plane_lhs 2 (-1) 1.2 (-1.5) (gp_point_on_plane g) = 0
    /\ (2 = 2 -> -1 = -1 -> 1.2 = 1.2 -> -1.5 = -1.5 ->
        gp_point_on_plane g = mkVec3 0.75 0 0).
Proof.
  apply (general_point_first_intercept 2 (-1) 1.2 (-1.5)).
  left. apply Rabs_guard_pos. lra.
Defined.

(** ** [make_line_plane_angle_example] *)

Lemma Rabs_zero_below_guard : ~ 1e-6 < Rabs 0.
Proof. rewrite Rabs_R0. lra. Qed.

(** The parameter [t] of line 517. *)
Lemma line_param_on_plane (normal p0 ls v : Vec3) :
  dot normal v <> 0 ->
  dot normal
      (vsub (vadd ls (vscale (- dot normal (vsub ls p0) / dot normal v) v)) p0)
  = 0.
Proof.
  intros Hd. unfold dot, vsub, vadd, vscale in *; simpl in *.
  field. exact Hd.
Qed.

(** C5 as stated fails: for the line through (0,0,1) with direction (1,0,0)
    and the plane z = 0, normal . direction = 0 is below the guard, yet the
    computation returns a point, the line's own start, which is not on the
    plane. *)
Lemma line_plane_parallel_returns_point :
  Rabs (dot (mkVec3 0 0 1) (mkVec3 1 0 0)) < 1e-6
  /\ line_plane_intersect (mkVec3 0 0 1) (mkVec3 0 0 0)
                          (mkVec3 0 0 1) (mkVec3 1 0 0)
     = Returned (mkVec3 0 0 1)
  /\ dot (mkVec3 0 0 1) (vsub (mkVec3 0 0 1) (mkVec3 0 0 0)) = 1.
Proof.
  assert (D : dot (mkVec3 0 0 1) (mkVec3 1 0 0) = 0)
    by (unfold dot; simpl; ring).
  split; [ | split ].
  - rewrite D, Rabs_R0. lra.
  - unfold line_plane_intersect. cbv zeta. rewrite D.
    destruct (Rlt_dec 1e-6 (Rabs 0)) as [G | _]; [ | reflexivity ].
    exfalso. exact (Rabs_zero_below_guard G).
  - unfold dot, vsub; simpl; ring.
Qed.

(** C5 (amended): when |normal . direction| > 1e-6 the computation returns
    line_start + t v with t = - normal . (line_start - plane_point) / denom,
    and that point lies on the plane; when |normal . direction| <= 1e-6 it
    returns line_start itself (the fallback of line 520) and reports nothing.
    For the line of the scene, point (-2,-1.2,-1.5) and direction
    (1,0.8,0.6), against normal (0.2,0.3,1.0) through the origin, the first
    case applies. *)
Theorem line_plane_intersect_cases (normal p0 ls v : Vec3) :
  (1e-6 < Rabs (dot normal v) ->
   exists q, line_plane_intersect normal p0 ls v = Returned q
     /\ q = vadd ls (vscale (- dot normal (vsub ls p0) / dot normal v) v)
     /\ dot normal (vsub q p0) = 0)
  /\ (Rabs (dot normal v) <= 1e-6 ->
      line_plane_intersect normal p0 ls v = Returned ls)
  /\ (exists q, make_line_plane_angle_example_intersect = Returned q
        /\ q = vadd example_line_start (vscale (2.26 / 1.04) example_v)
        /\ dot example_normal q = 0).
Proof.
  assert (Main : forall n p l w, 1e-6 < Rabs (dot n w) ->
            exists q, line_plane_intersect n p l w = Returned q
              /\ q = vadd l (vscale (- dot n (vsub l p) / dot n w) w)
              /\ dot n (vsub q p) = 0).
  { intros n p l w G. eexists. split; [ | split; [ reflexivity | ] ].
    - unfold line_plane_intersect. cbv zeta.
      destruct (Rlt_dec 1e-6 (Rabs (dot n w))); [ reflexivity | contradiction ].
    - apply line_param_on_plane.
      apply (Rabs_guard_nonzero 1e-6); [ lra | exact G ]. }
  split; [ apply Main | split ].
  - intros G. unfold line_plane_intersect. cbv zeta.
    destruct (Rlt_dec 1e-6 (Rabs (dot normal v))); [ lra | reflexivity ].
  - assert (D : dot example_normal example_v = 1.04)
      by (unfold dot, example_normal, example_v; simpl; lra).
    destruct (Main example_normal example_plane_point
                   example_line_start example_v) as (q & Hrun & Hq & Hon).
    { rewrite D. apply Rabs_guard_pos. lra. }
    exists q. split; [ exact Hrun | ]. split.
    + rewrite Hq, D. f_equal. f_equal. f_equal.
      unfold dot, vsub, example_normal, example_line_start,
        example_plane_point; simpl; lra.
    + rewrite <- Hon.
      unfold dot, vsub, example_normal, example_plane_point; simpl; lra.
Qed.

Lemma line_plane_intersect_cases_witness :
  (exists q, line_plane_intersect (mkVec3 0 0 2) (mkVec3 0 0 1)
                                  (mkVec3 1 1 5) (mkVec3 0 1 (-1))
             = Returned q
     /\ q = vadd (mkVec3 1 1 5)
              (vscale (- dot (mkVec3 0 0 2)
                             (vsub (mkVec3 1 1 5) (mkVec3 0 0 1))
                       / dot (mkVec3 0 0 2) (mkVec3 0 1 (-1)))
                      (mkVec3 0 1 (-1)))
     /\ dot (mkVec3 0 0 2) (vsub q (mkVec3 0 0 1)) = 0)
  /\ line_plane_intersect (mkVec3 0 0 1) (mkVec3 0 0 0)
                          (mkVec3 0 0 1) (mkVec3 1 0 0)
     = Returned (mkVec3 0 0 1).
Proof.
  split.
  - apply (proj1 (line_plane_intersect_cases (mkVec3 0 0 2) (mkVec3 0 0 1)
                    (mkVec3 1 1 5) (mkVec3 0 1 (-1)))).
    replace (dot (mkVec3 0 0 2) (mkVec3 0 1 (-1))) with (-2)
      by (unfold dot; simpl; ring).
    rewrite Rabs_left; lra.
  - apply (proj1 (proj2 (line_plane_intersect_cases (mkVec3 0 0 1)
                           (mkVec3 0 0 0) (mkVec3 0 0 1) (mkVec3 1 0 0)))).
    replace (dot (mkVec3 0 0 1) (mkVec3 1 0 0)) with 0
      by (unfold dot; simpl; ring).
    rewrite Rabs_R0. lra.
Defined.

(** ** Lengths *)

Lemma norm_vdiv (v : Vec3) (k : R) : 0 < k -> norm (vdiv v k) = norm v / k.
Proof.
  intros Hk. unfold norm.
  replace (dot (vdiv v k) (vdiv v k)) with (dot v v / (k * k)).
  - rewrite sqrt_div_alt by nra. rewrite sqrt_square by lra. reflexivity.
  - unfold dot, vdiv; simpl. field. lra.
Qed.

Lemma norm_zero_vec : norm (mkVec3 0 0 0) = 0.
Proof.
  unfold norm, dot; simpl.
  replace (0 * 0 + 0 * 0 + 0 * 0) with 0 by ring. apply sqrt_0.
Qed.

Lemma norm_x_axis (x : R) : 0 <= x -> norm (mkVec3 x 0 0) = x.
Proof.
  intros Hx. unfold norm, dot; simpl.
  replace (x * x + 0 * 0 + 0 * 0) with (x * x) by ring.
  apply sqrt_square, Hx.
Qed.

Lemma sqr_le_norm_sqr_x (u : Vec3) : vx u * vx u <= norm u * norm u.
Proof. rewrite norm_sqr. unfold dot. nra. Qed.

Lemma sqr_le_norm_sqr_y (u : Vec3) : vy u * vy u <= norm u * norm u.
Proof. rewrite norm_sqr. unfold dot. nra. Qed.

Lemma sqr_le_norm_sqr_z (u : Vec3) : vz u * vz u <= norm u * norm u.
Proof. rewrite norm_sqr. unfold dot. nra. Qed.

Lemma Rabs_le_of_sqr (x r : R) : 0 <= r -> x * x <= r * r -> Rabs x <= r.
Proof.
  intros Hr H. unfold Rabs. destruct (Rcase_abs x); nra.
Qed.

Lemma Rabs_vx_le_norm (u : Vec3) : Rabs (vx u) <= norm u.
Proof. apply Rabs_le_of_sqr; [ apply norm_nonneg | apply sqr_le_norm_sqr_x ]. Qed.

Lemma Rabs_vy_le_norm (u : Vec3) : Rabs (vy u) <= norm u.
Proof. apply Rabs_le_of_sqr; [ apply norm_nonneg | apply sqr_le_norm_sqr_y ]. Qed.

Lemma Rabs_vz_le_norm (u : Vec3) : Rabs (vz u) <= norm u.
Proof. apply Rabs_le_of_sqr; [ apply norm_nonneg | apply sqr_le_norm_sqr_z ]. Qed.

(** Dividing by [norm + 1e-12] leaves a vector strictly shorter than 1. *)
Lemma guarded_norm (v : Vec3) :
  norm (vdiv v (norm v + 1e-12)) = norm v / (norm v + 1e-12).
Proof. apply norm_vdiv, guard_pos. Qed.

Lemma guarded_ratio_lt_1 (r : R) : 0 <= r -> r / (r + 1e-12) < 1.
Proof.
  intros Hr. apply (Rmult_lt_reg_r (r + 1e-12)); [ lra | ].
  unfold Rdiv. rewrite Rmult_assoc, Rinv_l by lra. lra.
Qed.

Lemma guarded_ratio_lower (r lo : R) :
  0 < lo -> lo <= r -> 1 - 1e-12 / lo <= r / (r + 1e-12).
Proof.
  intros Hlo Hr.
  replace (r / (r + 1e-12)) with (1 - 1e-12 / (r + 1e-12)) by (field; lra).
  assert (1e-12 / (r + 1e-12) <= 1e-12 / lo); [ | lra ].
  unfold Rdiv. apply Rmult_le_compat_l; [ lra | ].
  apply Rinv_le_contravar; lra.
Qed.

Lemma vdiv_zero_vec (k : R) : vdiv (mkVec3 0 0 0) k = mkVec3 0 0 0.
Proof. apply vec3_eq; unfold vdiv, Rdiv; simpl; ring. Qed.

Lemma cross_zero_l (v : Vec3) : cross (mkVec3 0 0 0) v = mkVec3 0 0 0.
Proof. apply vec3_eq; unfold cross; simpl; ring. Qed.

Lemma cross_zero_r (v : Vec3) : cross v (mkVec3 0 0 0) = mkVec3 0 0 0.
Proof. apply vec3_eq; unfold cross; simpl; ring. Qed.

Lemma intercept_point_below_guard (a b c d : R) :
  norm (mkVec3 a b c) <= 1e-6 -> intercept_point a b c d = mkVec3 0 0 0.
Proof.
  intros H. unfold intercept_point.
  pose proof (Rabs_vx_le_norm (mkVec3 a b c)) as Hx.
  pose proof (Rabs_vy_le_norm (mkVec3 a b c)) as Hy.
  pose proof (Rabs_vz_le_norm (mkVec3 a b c)) as Hz.
  simpl in Hx, Hy, Hz.
  destruct (Rlt_dec 1e-6 (Rabs a)); [ lra | ].
  destruct (Rlt_dec 1e-6 (Rabs b)); [ lra | ].
  destruct (Rlt_dec 1e-6 (Rabs c)); [ lra | ].
  reflexivity.
Qed.

(** For a = b = c = 0 the frame collapses altogether: n = e1 = e2 = 0 and
    the surface is the single point (0,0,0). *)
Lemma zero_normal_frame :
  make_plane_general 0 0 0 1
  = Returned {| gp_normal := mkVec3 0 0 0;
                gp_point_on_plane := mkVec3 0 0 0;
                gp_n := mkVec3 0 0 0;
                gp_arbitrary := mkVec3 1 0 0;
                gp_e1 := mkVec3 0 0 0;
                gp_e2 := mkVec3 0 0 0 |}.
Proof.
  assert (A : arbitrary_axis (mkVec3 0 0 0) = mkVec3 1 0 0).
  { unfold arbitrary_axis; simpl. rewrite Rabs_R0.
    destruct (Rlt_dec 0 0.9); [ reflexivity | lra ]. }
  assert (E1 : basis_e1 (mkVec3 0 0 0) = mkVec3 0 0 0).
  { unfold basis_e1. cbv zeta. rewrite cross_zero_l. apply vdiv_zero_vec. }
  assert (E2 : basis_e2 (mkVec3 0 0 0) = mkVec3 0 0 0).
  { unfold basis_e2. apply cross_zero_l. }
  unfold make_plane_general. cbv zeta.
  rewrite general_point_on_plane_returns.
  rewrite intercept_point_below_guard by (rewrite norm_zero_vec; lra).
  simpl. rewrite vdiv_zero_vec, A, E1, E2. reflexivity.
Qed.

(** C6 as stated fails: for (a,b,c,d) = (1e-7, 0, 0, 1) the normal has
    length 1e-7 < 1e-6, and [make_plane_general] raises nothing: it returns
    a frame whose point_on_plane is the origin, a point that is not on the
    plane 1e-7 x + 1 = 0. *)
Lemma degenerate_general_returns_origin :
  norm (mkVec3 1e-7 0 0) = 1e-7
  /\ norm (mkVec3 1e-7 0 0) < 1e-6
  /\ (exists g, make_plane_general 1e-7 0 0 1 = Returned g
        /\ gp_point_on_plane g = mkVec3 0 0 0)
  /\ plane_lhs 1e-7 0 0 1 (mkVec3 0 0 0) = 1.
Proof.
  assert (HN : norm (mkVec3 1e-7 0 0) = 1e-7) by (apply norm_x_axis; lra).
  split; [ exact HN | ]. split; [ rewrite HN; lra | ]. split.
  - destruct (make_plane_general_returns 1e-7 0 0 1)
      as (g & Hrun & _ & Hpt & _).
    exists g. split; [ exact Hrun | ].
    rewrite Hpt. apply intercept_point_below_guard. rewrite HN. lra.
  - unfold plane_lhs; simpl; ring.
Qed.

(** C6 (amended): for every (a,b,c,d) with ||(a,b,c)|| < 1e-6,
    [make_plane_general] raises no error: it returns, with the origin as
    point_on_plane and n = (a,b,c) / (||(a,b,c)|| + 1e-12), a vector shorter
    than 1. *)
Theorem degenerate_general_returns (a b c d : R) :
  norm (mkVec3 a b c) < 1e-6 ->
  exists g, make_plane_general a b c d = Returned g
    /\ gp_point_on_plane g = mkVec3 0 0 0
    /\ gp_n g = vdiv (mkVec3 a b c) (norm (mkVec3 a b c) + 1e-12)
    /\ norm (gp_n g) < 1.
Proof.
  intros H.
  destruct (make_plane_general_returns a b c d)
    as (g & Hrun & _ & Hpt & Hn & _).
  exists g. split; [ exact Hrun | ]. split; [ | split ].
  - rewrite Hpt. apply intercept_point_below_guard. lra.
  - exact Hn.
  - rewrite Hn, guarded_norm. apply guarded_ratio_lt_1, norm_nonneg.
Qed.

Lemma degenerate_general_returns_witness :
  exists g, make_plane_general 1e-7 0 0 1 = Returned g
    /\ gp_point_on_plane g = mkVec3 0 0 0
    /\ gp_n g = vdiv (mkVec3 1e-7 0 0) (norm (mkVec3 1e-7 0 0) + 1e-12)
    /\ norm (gp_n g) < 1.
Proof.
  apply (degenerate_general_returns 1e-7 0 0 1).
  rewrite norm_x_axis; lra.
Defined.

(** ** The in-plane basis *)

Lemma lagrange (u v : Vec3) :
  dot (cross u v) (cross u v) = dot u u * dot v v - dot u v * dot u v.
Proof. unfold dot, cross; simpl; ring. Qed.

Lemma norm_cross_orth (u v : Vec3) :
  dot u v = 0 -> norm (cross u v) = norm u * norm v.
Proof.
  intros H. unfold norm at 1. rewrite lagrange, H.
  replace (dot u u * dot v v - 0 * 0)
    with ((norm u * norm v) * (norm u * norm v)).
  - apply sqrt_square.
    apply Rmult_le_pos; apply norm_nonneg.
  - rewrite <- (norm_sqr u), <- (norm_sqr v). ring.
Qed.

Lemma basis_orthogonal (n : Vec3) :
  pairwise_orthogonal n (basis_e1 n) (basis_e2 n).
Proof.
  assert (H1 : dot (basis_e1 n) n = 0).
  { unfold basis_e1. cbv zeta.
    rewrite dot_vdiv_l, (dot_comm _ n), dot_cross_l. unfold Rdiv; ring. }
  unfold pairwise_orthogonal. split; [ | split ].
  - unfold basis_e2. apply dot_cross_r.
  - exact H1.
  - unfold basis_e2. rewrite dot_comm. apply dot_cross_l.
Qed.

Lemma arbitrary_axis_cases (n : Vec3) :
  (Rabs (vx n) < 0.9 /\ arbitrary_axis n = mkVec3 1 0 0)
  \/ (0.9 <= Rabs (vx n) /\ arbitrary_axis n = mkVec3 0 1 0).
Proof.
  unfold arbitrary_axis.
  destruct (Rlt_dec (Rabs (vx n)) 0.9); [ left | right ]; split;
    try reflexivity; lra.
Qed.

Lemma Rabs_sqr_lt (x r : R) : Rabs x < r -> x * x < r * r.
Proof. unfold Rabs. destruct (Rcase_abs x); nra. Qed.

Lemma Rabs_sqr_ge (x r : R) : 0 <= r -> r <= Rabs x -> r * r <= x * x.
Proof. unfold Rabs. destruct (Rcase_abs x); nra. Qed.

(** The helper axis is never close to parallel to a vector of length
    about 1. *)
Lemma sqr_lower_bound (r lo : R) : 0 <= r -> lo * lo <= r * r -> 0 <= lo -> lo <= r.
Proof. intros. nra. Qed.

Lemma cross_arbitrary_long (n : Vec3) :
  0.99 <= norm n -> 0.4 <= norm (cross n (arbitrary_axis n)).
Proof.
  intros Hn.
  assert (Hnn : 0.9801 <= dot n n) by (rewrite <- norm_sqr; nra).
  apply sqr_lower_bound; [ apply norm_nonneg | | lra ].
  rewrite norm_sqr.
  destruct (arbitrary_axis_cases n) as [[Hx E] | [Hx E]]; rewrite E.
  - apply Rabs_sqr_lt in Hx.
    unfold dot in *; unfold cross; simpl. nra.
  - apply Rabs_sqr_ge in Hx; [ | lra ].
    unfold dot; unfold cross; simpl. nra.
Qed.

Lemma basis_near_unit (n : Vec3) :
  1 - 1e-6 <= norm n <= 1 ->
  near_unit (basis_e1 n) /\ near_unit (basis_e2 n).
Proof.
  intros [Hlo Hhi].
  set (c := cross n (arbitrary_axis n)).
  assert (Hc : 0.4 <= norm c) by (apply cross_arbitrary_long; lra).
  assert (E1 : norm (basis_e1 n) = norm c / (norm c + 1e-12)).
  { unfold basis_e1. cbv zeta. fold c. apply guarded_norm. }
  pose proof (guarded_ratio_lt_1 (norm c) (norm_nonneg c)) as U1.
  pose proof (guarded_ratio_lower (norm c) 0.4 ltac:(lra) Hc) as L1.
  rewrite <- E1 in U1, L1.
  assert (E2 : norm (basis_e2 n) = norm n * norm (basis_e1 n)).
  { unfold basis_e2. apply norm_cross_orth.
    destruct (basis_orthogonal n) as (_ & H & _).
    rewrite dot_comm. exact H. }
  assert (L1' : 1 - 2.5e-12 <= norm (basis_e1 n)).
  { replace 2.5e-12 with (1e-12 / 0.4) by lra. exact L1. }
  unfold near_unit. rewrite E2. split; split; nra.
Qed.

Lemma normal_form_unit (l m n p : R) :
  norm (nf_normal_unit (make_plane_normal_form l m n p)) = 1.
Proof.
  unfold make_plane_normal_form; simpl.
  destruct (Req_dec_T (norm (mkVec3 l m n)) 0) as [Z | NZ].
  - rewrite norm_vdiv by lra.
    unfold norm, dot; simpl.
    replace (0 * 0 + 0 * 0 + 1 * 1) with 1 by ring.
    rewrite sqrt_1. lra.
  - pose proof (norm_nonneg (mkVec3 l m n)).
    rewrite norm_vdiv by lra. field. exact NZ.
Qed.

Lemma general_n_near_unit (a b c : R) :
  1e-6 < Rabs a \/ 1e-6 < Rabs b \/ 1e-6 < Rabs c ->
  1 - 1e-6 <= norm (vdiv (mkVec3 a b c) (norm (mkVec3 a b c) + 1e-12)) < 1.
Proof.
  intros H. set (N := mkVec3 a b c).
  assert (HN : 1e-6 <= norm N).
  { pose proof (Rabs_vx_le_norm N) as Hx.
    pose proof (Rabs_vy_le_norm N) as Hy.
    pose proof (Rabs_vz_le_norm N) as Hz.
    simpl in Hx, Hy, Hz. destruct H as [H | [H | H]]; lra. }
  rewrite guarded_norm. split.
  - replace 1e-6 with (1e-12 / 1e-6) at 1 by lra.
    apply guarded_ratio_lower; [ lra | exact HN ].
  - apply guarded_ratio_lt_1, norm_nonneg.
Qed.

(** C7 as stated fails: (1e-12, 0, 0) is a non-zero normal, and the frame
    [make_plane_general] builds from it has n = (0.5, 0, 0) and
    e1 = e2 = (0, 0, 0): none of the three is a unit vector. *)
Lemma tiny_normal_frame_not_unit :
  make_plane_general 1e-12 0 0 0
  = Returned {| gp_normal := mkVec3 1e-12 0 0;
                gp_point_on_plane := mkVec3 0 0 0;
                gp_n := mkVec3 0.5 0 0;
                gp_arbitrary := mkVec3 1 0 0;
                gp_e1 := mkVec3 0 0 0;
                gp_e2 := mkVec3 0 0 0 |}
  /\ norm (mkVec3 0.5 0 0) = 0.5
  /\ norm (mkVec3 0 0 0) = 0.
Proof.
  assert (HN : norm (mkVec3 1e-12 0 0) = 1e-12) by (apply norm_x_axis; lra).
  assert (Hn : vdiv (mkVec3 1e-12 0 0) (norm (mkVec3 1e-12 0 0) + 1e-12)
               = mkVec3 0.5 0 0).
  { rewrite HN. apply vec3_eq; unfold vdiv; simpl; lra. }
  assert (A : arbitrary_axis (mkVec3 0.5 0 0) = mkVec3 1 0 0).
  { unfold arbitrary_axis; simpl. rewrite Rabs_right by lra.
    destruct (Rlt_dec 0.5 0.9); [ reflexivity | lra ]. }
  assert (C : cross (mkVec3 0.5 0 0) (mkVec3 1 0 0) = mkVec3 0 0 0).
  { apply vec3_eq; unfold cross; simpl; ring. }
  assert (E1 : basis_e1 (mkVec3 0.5 0 0) = mkVec3 0 0 0).
  { unfold basis_e1. cbv zeta. rewrite A, C. apply vdiv_zero_vec. }
  assert (E2 : basis_e2 (mkVec3 0.5 0 0) = mkVec3 0 0 0).
  { unfold basis_e2. rewrite E1. apply cross_zero_r. }
  split; [ | split ].
  - unfold make_plane_general. cbv zeta.
    rewrite general_point_on_plane_returns.
    rewrite intercept_point_below_guard by (rewrite HN; lra).
    simpl. rewrite Hn, A, E1, E2. reflexivity.
  - apply norm_x_axis. lra.
  - apply norm_zero_vec.
Qed.

(** C7 (amended): the frames of [make_plane_general] and
    [make_plane_normal_form] (the intercept form builds no frame) always have
    n, e1, e2 pairwise orthogonal with e2 = n x e1.  Their lengths are 1 only
    up to the 1e-12 guard: for the general form, when a coefficient passes
    the 1e-6 guard, all three lengths lie in (1 - 2e-6, 1]; for the normal
    form the normal has length exactly 1 and e1, e2 have length in
    (1 - 2e-6, 1]. *)
Theorem frames_orthogonal_near_unit :
  (forall a b c d : R,
     exists g, make_plane_general a b c d = Returned g
       /\ pairwise_orthogonal (gp_n g) (gp_e1 g) (gp_e2 g)
       /\ gp_e2 g = cross (gp_n g) (gp_e1 g)
       /\ (1e-6 < Rabs a \/ 1e-6 < Rabs b \/ 1e-6 < Rabs c ->
           near_unit (gp_n g) /\ near_unit (gp_e1 g) /\ near_unit (gp_e2 g)))
  /\ (forall l m n p : R,
        let g := make_plane_normal_form l m n p in
        pairwise_orthogonal (nf_normal_unit g) (nf_e1 g) (nf_e2 g)
        /\ nf_e2 g = cross (nf_normal_unit g) (nf_e1 g)
        /\ norm (nf_normal_unit g) = 1
        /\ near_unit (nf_e1 g) /\ near_unit (nf_e2 g)).
Proof.
  split.
  - intros a b c d.
    destruct (make_plane_general_returns a b c d)
      as (g & Hrun & _ & _ & Hn & _ & He1 & He2).
    exists g. split; [ exact Hrun | ]. split; [ | split ].
    + rewrite He1, He2. apply basis_orthogonal.
    + rewrite He2, He1. reflexivity.
    + intros G. pose proof (general_n_near_unit a b c G) as B.
      rewrite <- Hn in B.
      destruct (basis_near_unit (gp_n g)) as [U1 U2]; [ lra | ].
      rewrite He1, He2. repeat split; try apply U1; try apply U2; lra.
  - intros l m n p g.
    pose proof (normal_form_unit l m n p) as U. fold g in U.
    destruct (basis_near_unit (nf_normal_unit g)) as [U1 U2]; [ lra | ].
    split; [ apply basis_orthogonal | ].
    split; [ reflexivity | ].
    split; [ exact U | ].
    split; [ exact U1 | exact U2 ].
Qed.

Lemma frames_orthogonal_near_unit_witness :
  exists g, make_plane_general 2 (-1) 1.2 (-1.5) = Returned g
    /\ pairwise_orthogonal (gp_n g) (gp_e1 g) (gp_e2 g)
    /\ gp_e2 g = cross (gp_n g) (gp_e1 g)
    /\ near_unit (gp_n g) /\ near_unit (gp_e1 g) /\ near_unit (gp_e2 g).
Proof.
  destruct (proj1 frames_orthogonal_near_unit 2 (-1) 1.2 (-1.5))
    as (g & Hrun & Ho & He & Hu).
  exists g. split; [ exact Hrun | ]. split; [ exact Ho | ].
  split; [ exact He | ].
  apply Hu. left. apply Rabs_guard_pos. lra.
Defined.

Lemma threshold_normal_unit : norm threshold_normal = 1.
Proof.
  unfold norm, dot, threshold_normal; simpl.
  rewrite sqrt_sqrt by lra.
  replace (0.9 * 0.9 + 0.19 + 0 * 0) with 1 by lra.
  apply sqrt_1.
Qed.

Lemma threshold_normal_abs : Rabs (vx threshold_normal) = 0.9.
Proof. unfold threshold_normal; simpl. apply Rabs_right. lra. Qed.

(** C8 as stated fails on the threshold itself: (0.9, sqrt 0.19, 0) is a
    unit vector whose X-component has magnitude 0.9, which does not exceed
    0.9, yet the helper vector chosen is the world-Y axis. *)
Lemma arbitrary_axis_at_threshold :
  norm threshold_normal = 1
  /\ ~ 0.9 < Rabs (vx threshold_normal)
  /\ arbitrary_axis threshold_normal = mkVec3 0 1 0.
Proof.
  split; [ exact threshold_normal_unit | split ].
  - rewrite threshold_normal_abs. lra.
  - unfold arbitrary_axis. rewrite threshold_normal_abs.
    destruct (Rlt_dec 0.9 0.9); [ lra | reflexivity ].
Qed.

(** C8 (amended): for every unit normal n the helper vector is the world-X
    axis when |n_x| < 0.9 and the world-Y axis when |n_x| >= 0.9; either way
    n x arbitrary has length at least 0.4; e1 is n x arbitrary divided by
    its length plus 1e-12, and e2 = n x e1; equal inputs give equal bases. *)
Theorem basis_threshold (n : Vec3) :
  norm n = 1 ->
  (Rabs (vx n) < 0.9 -> arbitrary_axis n = mkVec3 1 0 0)
  /\ (0.9 <= Rabs (vx n) -> arbitrary_axis n = mkVec3 0 1 0)
  /\ 0.4 <= norm (cross n (arbitrary_axis n))
  /\ basis_e1 n
     = vdiv (cross n (arbitrary_axis n))
            (norm (cross n (arbitrary_axis n)) + 1e-12)
  /\ basis_e2 n = cross n (basis_e1 n)
  /\ (forall n' : Vec3,
        n' = n -> basis_e1 n' = basis_e1 n /\ basis_e2 n' = basis_e2 n).
Proof.
  intros U. split; [ | split; [ | split; [ | split; [ | split ] ] ] ].
  - intros H. unfold arbitrary_axis.
    destruct (Rlt_dec (Rabs (vx n)) 0.9); [ reflexivity | contradiction ].
  - intros H. unfold arbitrary_axis.
    destruct (Rlt_dec (Rabs (vx n)) 0.9); [ lra | reflexivity ].
  - apply cross_arbitrary_long. lra.
  - reflexivity.
  - reflexivity.
  - intros n' ->. split; reflexivity.
Qed.

Lemma basis_threshold_witness :
  arbitrary_axis threshold_normal = mkVec3 0 1 0
  /\ 0.4 <= norm (cross threshold_normal (arbitrary_axis threshold_normal)).
Proof.
  destruct (basis_threshold threshold_normal) as (_ & HY & HL & _).
  - exact threshold_normal_unit.
  - split; [ | exact HL ].
    apply HY. rewrite threshold_normal_abs. lra.
Defined.

(** ** [make_plane_normal_form] *)

Lemma norm_nonzero (v : Vec3) : v <> mkVec3 0 0 0 -> norm v <> 0.
Proof.
  intros Hv Hn. apply Hv.
  pose proof (norm_sqr v) as Hs. rewrite Hn in Hs.
  unfold dot in Hs.
  apply vec3_eq; simpl; nra.
Qed.

Lemma normal_form_fields (l m n p : R) :
  mkVec3 l m n <> mkVec3 0 0 0 ->
  nf_normal_unit (make_plane_normal_form l m n p)
  = vdiv (mkVec3 l m n) (norm (mkVec3 l m n)).
Proof.
  intros H. apply norm_nonzero in H.
  unfold make_plane_normal_form; simpl.
  destruct (Req_dec_T (norm (mkVec3 l m n)) 0); [ contradiction | reflexivity ].
Qed.

(** C2 as stated fails: for (l,m,n,p) = (2,0,0,2) the constructor returns
    the point (2,0,0), the unit normal times p itself, not the unit normal
    times p / ||(l,m,n)|| = 1, which is (1,0,0). *)
Lemma normal_form_p_not_rescaled :
  mkVec3 2 0 0 <> mkVec3 0 0 0
  /\ norm (mkVec3 2 0 0) = 2
  /\ nf_normal_unit (make_plane_normal_form 2 0 0 2) = mkVec3 1 0 0
  /\ nf_p_point (make_plane_normal_form 2 0 0 2) = mkVec3 2 0 0
  /\ vscale (2 / norm (mkVec3 2 0 0))
            (nf_normal_unit (make_plane_normal_form 2 0 0 2))
     = mkVec3 1 0 0.
Proof.
  assert (NZ : mkVec3 2 0 0 <> mkVec3 0 0 0).
  { intros E. apply (f_equal vx) in E. simpl in E. lra. }
  assert (N2 : norm (mkVec3 2 0 0) = 2) by (apply norm_x_axis; lra).
  assert (NU : nf_normal_unit (make_plane_normal_form 2 0 0 2) = mkVec3 1 0 0).
  { rewrite normal_form_fields by exact NZ. rewrite N2.
    apply vec3_eq; unfold vdiv; simpl; lra. }
  split; [ exact NZ | ]. split; [ exact N2 | ]. split; [ exact NU | ].
  split.
  - change (nf_p_point (make_plane_normal_form 2 0 0 2))
      with (vscale 2 (nf_normal_unit (make_plane_normal_form 2 0 0 2))).
    rewrite NU. apply vec3_eq; unfold vscale; simpl; lra.
  - rewrite NU, N2. apply vec3_eq; unfold vscale; simpl; lra.
Qed.

(** C2 (amended): for (l,m,n) not the zero vector the constructor divides
    (l,m,n) by its length, which gives a vector of length 1, and leaves p as
    it is: the returned point is the unit normal times p, the point at
    signed distance p along the unit normal from the origin. *)
Theorem normal_form_point (l m n p : R) :
  mkVec3 l m n <> mkVec3 0 0 0 ->
  let g := make_plane_normal_form l m n p in
  nf_normal_unit g = vdiv (mkVec3 l m n) (norm (mkVec3 l m n))
  /\ norm (nf_normal_unit g) = 1
  /\ nf_p_point g = vscale p (nf_normal_unit g)
  /\ dot (nf_normal_unit g) (nf_p_point g) = p.
Proof.
  intros H g.
  pose proof (normal_form_unit l m n p) as U. fold g in U.
  split; [ apply normal_form_fields, H | ].
  split; [ exact U | ].
  split; [ reflexivity | ].
  change (nf_p_point g) with (vscale p (nf_normal_unit g)).
  rewrite dot_vscale_r, <- norm_sqr, U. ring.
Qed.

Lemma normal_form_point_witness :
  let g := make_plane_normal_form 2 0 0 2 in
  nf_normal_unit g = vdiv (mkVec3 2 0 0) (norm (mkVec3 2 0 0))
  /\ norm (nf_normal_unit g) = 1
  /\ nf_p_point g = vscale 2 (nf_normal_unit g)
  /\ dot (nf_normal_unit g) (nf_p_point g) = 2.
Proof.
  apply (normal_form_point 2 0 0 2).
  intros E. apply (f_equal vx) in E. simpl in E. lra.
Defined.

(** ** [make_point_to_plane_distance_example] *)

Lemma example_numerator :
  de_numerator make_point_to_plane_distance_example = 2.42.
Proof.
  unfold make_point_to_plane_distance_example, point_to_plane; simpl. lra.
Qed.

Lemma example_denom : de_denom make_point_to_plane_distance_example = 2.44.
Proof.
  unfold make_point_to_plane_distance_example, point_to_plane; simpl. lra.
Qed.

Lemma example_value :
  de_value make_point_to_plane_distance_example = 2.42 / sqrt 2.44.
Proof.
  change (de_value make_point_to_plane_distance_example)
    with (Rabs (de_numerator make_point_to_plane_distance_example)
          / sqrt (de_denom make_point_to_plane_distance_example)).
  rewrite example_numerator, example_denom, Rabs_right by lra.
  reflexivity.
Qed.

Lemma sqrt_244_bounds : 1.5618 < sqrt 2.44 < 1.5628.
Proof.
  pose proof (sqrt_pos 2.44) as Hp.
  pose proof (sqrt_sqrt 2.44 ltac:(lra)) as Hs.
  split; nra.
Qed.

Lemma example_value_bounds :
  1.5485 <= de_value make_point_to_plane_distance_example < 1.5495.
Proof.
  rewrite example_value.
  destruct sqrt_244_bounds as [Lo Hi].
  assert (P : 0 < sqrt 2.44) by lra.
  split.
  - apply (Rmult_le_reg_r (sqrt 2.44)); [ exact P | ].
    unfold Rdiv. rewrite Rmult_assoc, Rinv_l by lra. nra.
  - apply (Rmult_lt_reg_r (sqrt 2.44)); [ exact P | ].
    unfold Rdiv. rewrite Rmult_assoc, Rinv_l by lra. nra.
Qed.

(** C3 as stated fails: for P = (2.2, 1.1, 1.8) and a=1.2, b=-0.6, c=0.8,
    d=-1.0 the number the program prints is not 0.713; the distance is
    above 1.5. *)
Lemma example_distance_not_0_713 :
  de_value make_point_to_plane_distance_example
  = Rabs (1.2 * 2.2 + -0.6 * 1.1 + 0.8 * 1.8 + -1.0)
    / sqrt (1.2 * 1.2 + -0.6 * -0.6 + 0.8 * 0.8)
  /\ 1.5 < de_value make_point_to_plane_distance_example
  /\ ~ shows_as_3f (de_value make_point_to_plane_distance_example) 713.
Proof.
  pose proof example_value_bounds as B.
  split; [ reflexivity | ]. split; [ lra | ].
  unfold shows_as_3f. lra.
Qed.

(** C3 (amended): for P = (2.2, 1.1, 1.8) and a=1.2, b=-0.6, c=0.8, d=-1.0
    the numerator is 2.42, a^2+b^2+c^2 is 2.44, and the unsigned distance
    |a x0 + b y0 + c z0 + d| / sqrt(a^2+b^2+c^2) = 2.42 / sqrt 2.44 is
    approximately 1.549 (it prints as 1.549 with three decimals). *)
Theorem example_distance_1_549 :
  de_numerator make_point_to_plane_distance_example = 2.42
  /\ de_denom make_point_to_plane_distance_example = 2.44
  /\ de_value make_point_to_plane_distance_example = 2.42 / sqrt 2.44
  /\ shows_as_3f (de_value make_point_to_plane_distance_example) 1549.
Proof.
  pose proof example_value_bounds as B.
  split; [ exact example_numerator | ].
  split; [ exact example_denom | ].
  split; [ exact example_value | ].
  unfold shows_as_3f. lra.
Qed.

(** ** [VAR_COLORS] *)

Lemma dict_find_none (tbl : list (string * Color)) (key : string) :
  ~ In key (dict_keys tbl) -> dict_find tbl key = None.
Proof.
  induction tbl as [ | [k v] rest IH ]; simpl; intros H.
  - reflexivity.
  - destruct (String.eqb k key) eqn:E.
    + apply String.eqb_eq in E. exfalso. apply H. left. exact E.
    + apply IH. intros Hin. apply H. right. exact Hin.
Qed.

Lemma dict_find_some_in (tbl : list (string * Color)) (key : string) (v : Color) :
  dict_find tbl key = Some v -> In (key, v) tbl.
Proof.
  induction tbl as [ | [k w] rest IH ]; simpl; intros H.
  - discriminate.
  - destruct (String.eqb k key) eqn:E.
    + apply String.eqb_eq in E. injection H as ->. subst. left. reflexivity.
    + right. apply IH, H.
Qed.

Lemma dict_find_first (tbl : list (string * Color)) (key : string) (v : Color) :
  NoDup (dict_keys tbl) -> In (key, v) tbl -> dict_find tbl key = Some v.
Proof.
  induction tbl as [ | [k w] rest IH ]; simpl; intros ND Hin.
  - contradiction.
  - inversion ND as [ | ? ? Hk ND' ]; subst.
    destruct Hin as [E | Hin].
    + injection E as -> ->. rewrite String.eqb_refl. reflexivity.
    + destruct (String.eqb k key) eqn:E.
      * apply String.eqb_eq in E. subst. exfalso. apply Hk.
        unfold dict_keys. apply (in_map fst) in Hin. exact Hin.
      * apply IH; assumption.
Qed.

Lemma VAR_COLORS_keys_nodup : NoDup (dict_keys VAR_COLORS).
Proof.
  unfold dict_keys, VAR_COLORS; simpl.
  repeat (constructor; [ simpl; intuition discriminate | ]).
  constructor.
Qed.

Lemma token_color_map_consistent (entries : list (string * string)) :
  (forall tok key, In (tok, key) entries ->
     tok = key /\ In key (dict_keys VAR_COLORS)) ->
  exists m, token_color_map entries = Returned m
    /\ forall tok col, In (tok, col) m ->
         dict_getitem VAR_COLORS tok = Returned col.
Proof.
  induction entries as [ | [tok key] rest IH ]; intros H.
  - exists []. split; [ reflexivity | ]. intros ? ? [].
  - destruct IH as (m & Hm & Hall).
    { intros t k Hin. apply H. right. exact Hin. }
    destruct (H tok key (or_introl eq_refl)) as [-> Hk].
    simpl. unfold dict_getitem at 1.
    destruct (dict_find VAR_COLORS key) as [col | ] eqn:F.
    + simpl. rewrite Hm. simpl. eexists. split; [ reflexivity | ].
      intros t c [E | Hin].
      * injection E as <- <-. unfold dict_getitem. rewrite F. reflexivity.
      * apply Hall, Hin.
    + exfalso. clear - F Hk.
      unfold dict_keys in Hk. apply in_map_iff in Hk.
      destruct Hk as ([k v] & E & Hin). simpl in E. subst.
      rewrite (dict_find_first VAR_COLORS key v VAR_COLORS_keys_nodup Hin) in F.
      discriminate.
Qed.

(** C9: [VAR_COLORS] is a constant table with one entry per token; the
    subscript [VAR_COLORS[tok]] of a registered token returns the colour the
    table pairs it with, every token-to-colour dict built for a 3D label or
    for equation text maps each token to that same colour, and the subscript
    of a token absent from the table raises the unknown-key error
    ([KeyError]). *)
Theorem var_colors_lookup :
  NoDup (dict_keys VAR_COLORS)
  /\ (forall tok col, In (tok, col) VAR_COLORS ->
        dict_getitem VAR_COLORS tok = Returned col)
  /\ (forall site, In site (label_sites ++ text_sites) ->
        exists m, token_color_map site = Returned m
          /\ forall tok col, In (tok, col) m ->
               dict_getitem VAR_COLORS tok = Returned col)
  /\ (forall tok, ~ In tok (dict_keys VAR_COLORS) ->
        dict_getitem VAR_COLORS tok = Raised (KeyError tok)).
Proof.
  split; [ exact VAR_COLORS_keys_nodup | ].
  split; [ | split ].
  - intros tok col Hin. unfold dict_getitem.
    rewrite (dict_find_first _ _ _ VAR_COLORS_keys_nodup Hin). reflexivity.
  - intros site Hin. apply token_color_map_consistent.
    intros tok key Hk.
    simpl in Hin.
    repeat (destruct Hin as [<- | Hin];
            [ simpl in Hk;
              repeat (destruct Hk as [E | Hk];
                      [ injection E as <- <-; split;
                        [ reflexivity | simpl; tauto ] | ]);
              contradiction | ]).
    contradiction.
  - intros tok H. unfold dict_getitem.
    rewrite dict_find_none by exact H. reflexivity.
Qed.

Lemma var_colors_lookup_witness :
  dict_getitem VAR_COLORS "a" = Returned RED
  /\ dict_getitem VAR_COLORS "theta" = Raised (KeyError "theta").
Proof.
  destruct var_colors_lookup as (_ & Hreg & _ & Hunk).
  split.
  - apply Hreg. simpl. left. reflexivity.
  - apply Hunk. simpl. intuition discriminate.
Defined.

(** ** [make_angle_between_planes_example] *)

Lemma clip_opp (x : R) : clip (- x) (-1) 1 = - clip x (-1) 1.
Proof.
  unfold clip, Rmin, Rmax.
  repeat (destruct (Rle_dec _ _)); lra.
Qed.

Lemma clip_range (x : R) : -1 <= clip x (-1) 1 <= 1.
Proof.
  unfold clip, Rmin, Rmax.
  repeat (destruct (Rle_dec _ _)); lra.
Qed.

Lemma clip_negative (x : R) : x < 0 -> -1 <= clip x (-1) 1 < 0.
Proof.
  intros H. unfold clip, Rmin, Rmax.
  repeat (destruct (Rle_dec _ _)); lra.
Qed.

Lemma norm_vneg (v : Vec3) : norm (vneg v) = norm v.
Proof. unfold norm. f_equal. unfold dot, vneg; simpl; ring. Qed.

Lemma unit_dot_vneg_r (u v : Vec3) (k : R) :
  dot u (vdiv (vneg v) k) = - dot u (vdiv v k).
Proof. unfold dot, vdiv, vneg, Rdiv; simpl; ring. Qed.

Lemma unit_dot_vneg_l (u v : Vec3) (k : R) :
  dot (vdiv (vneg u) k) v = - dot (vdiv u k) v.
Proof. unfold dot, vdiv, vneg, Rdiv; simpl; ring. Qed.

(** Negating one normal turns the computed angle into its supplement. *)
Lemma planes_theta_vneg_r (n1 n2 : Vec3) :
  planes_theta n1 (vneg n2) = PI - planes_theta n1 n2.
Proof.
  unfold planes_theta. cbv zeta.
  rewrite norm_vneg, unit_dot_vneg_r, clip_opp. apply acos_opp.
Qed.

Lemma planes_theta_vneg_l (n1 n2 : Vec3) :
  planes_theta (vneg n1) n2 = PI - planes_theta n1 n2.
Proof.
  unfold planes_theta. cbv zeta.
  rewrite norm_vneg, unit_dot_vneg_l, clip_opp. apply acos_opp.
Qed.

Lemma acos_negative_obtuse (x : R) : -1 <= x < 0 -> PI / 2 < acos x <= PI.
Proof.
  intros Hx.
  pose proof (acos_bound x) as [B0 B1].
  split; [ | exact B1 ].
  destruct (Rlt_le_dec (PI / 2) (acos x)) as [ | Hle ]; [ assumption | ].
  exfalso.
  assert (C : 0 <= cos (acos x)).
  { apply cos_ge_0; [ | exact Hle ]. pose proof PI_RGT_0. lra. }
  rewrite cos_acos in C by lra. lra.
Qed.

Lemma norm_pos_of_sqr (v : Vec3) : 0 < dot v v -> 0 < norm v.
Proof.
  intros H. pose proof (norm_nonneg v) as N. pose proof (norm_sqr v) as S.
  destruct N as [N | N]; [ exact N | ]. rewrite <- N in S. lra.
Qed.

Lemma example_unit_dot_negative :
  dot (vdiv example_n1 (norm example_n1)) (vdiv example_n2 (norm example_n2)) < 0.
Proof.
  assert (P1 : 0 < norm example_n1).
  { apply norm_pos_of_sqr. unfold dot, example_n1; simpl. lra. }
  assert (P2 : 0 < norm example_n2).
  { apply norm_pos_of_sqr. unfold dot, example_n2; simpl. lra. }
  replace (dot (vdiv example_n1 (norm example_n1))
               (vdiv example_n2 (norm example_n2)))
    with (dot example_n1 example_n2 * / (norm example_n1 * norm example_n2)).
  - assert (D : dot example_n1 example_n2 = -0.48)
      by (unfold dot, example_n1, example_n2; simpl; lra).
    rewrite D.
    assert (0 < / (norm example_n1 * norm example_n2)).
    { apply Rinv_0_lt_compat. nra. }
    nra.
  - unfold dot, vdiv; simpl. field. split; lra.
Qed.

(** C1: the code takes no absolute value.  For the two normals of the scene,
    n1 = (1, 0.8, 0.2) and n2 = (0.2, -1, 0.6), whose dot product is -0.48,
    the angle it computes is arccos(clip(n1_unit . n2_unit, -1, 1)), lies in
    (pi/2, pi], outside [0, pi/2], and negating either normal replaces it by
    its supplement, a different angle. *)
Theorem example_theta_obtuse :
  dot example_n1 example_n2 = -0.48
  /\ PI / 2 < make_angle_between_planes_example_theta <= PI
  /\ planes_theta example_n1 (vneg example_n2)
     = PI - make_angle_between_planes_example_theta
  /\ planes_theta (vneg example_n1) example_n2
     = PI - make_angle_between_planes_example_theta
  /\ planes_theta example_n1 (vneg example_n2)
     <> make_angle_between_planes_example_theta.
Proof.
  assert (O : PI / 2 < make_angle_between_planes_example_theta <= PI).
  { unfold make_angle_between_planes_example_theta, planes_theta. cbv zeta.
    apply acos_negative_obtuse, clip_negative, example_unit_dot_negative. }
  split; [ unfold dot, example_n1, example_n2; simpl; lra | ].
  split; [ exact O | ].
  split; [ apply planes_theta_vneg_r | ].
  split; [ apply planes_theta_vneg_l | ].
  rewrite planes_theta_vneg_r.
  fold make_angle_between_planes_example_theta. lra.
Qed.

(** * Further properties of the scene's geometry *)

Lemma norm_vscale (k : R) (v : Vec3) : norm (vscale k v) = Rabs k * norm v.
Proof.
  unfold norm.
  replace (dot (vscale k v) (vscale k v)) with (Rsqr k * dot v v)
    by (unfold dot, vscale, Rsqr; simpl; ring).
  rewrite sqrt_mult by (try apply Rle_0_sqr; apply dot_self_nonneg).
  rewrite sqrt_Rsqr_abs. reflexivity.
Qed.

Lemma norm_pos_nonzero (v : Vec3) : v <> mkVec3 0 0 0 -> 0 < norm v.
Proof.
  intros H. pose proof (norm_nonneg v). pose proof (norm_nonzero v H). lra.
Qed.

Lemma norm_normalized (v : Vec3) :
  v <> mkVec3 0 0 0 -> norm (vdiv v (norm v)) = 1.
Proof.
  intros H. pose proof (norm_pos_nonzero v H) as P.
  rewrite norm_vdiv by exact P. field. lra.
Qed.

Lemma norm_zero_iff (v : Vec3) : norm v = 0 <-> v = mkVec3 0 0 0.
Proof.
  split.
  - intros H. destruct v as [x y z].
    pose proof (norm_sqr (mkVec3 x y z)) as S. rewrite H in S.
    unfold dot in S; simpl in S.
    apply vec3_eq; simpl; nra.
  - intros ->. apply norm_zero_vec.
Qed.

(** ** [make_plane_intercept_form] *)

(** The three intercept points, and with them every point of the plane
    through the triangle, satisfy x/a + y/b + z/c = 1; each intercept lies
    below the upper end of its axis, which is at least 5. *)
Theorem intercept_triangle_on_plane (a b c : R) :
  a <> 0 -> b <> 0 -> c <> 0 ->
  let g := make_plane_intercept_form a b c in
  intercept_lhs a b c (ip_A g) = 1
  /\ intercept_lhs a b c (ip_B g) = 1
  /\ intercept_lhs a b c (ip_C g) = 1
  /\ (forall s t : R, intercept_lhs a b c (triangle_point g s t) = 1)
  /\ (a < ip_x_max g /\ b < ip_y_max g /\ c < ip_z_max g)
  /\ (5 <= ip_x_max g /\ 5 <= ip_y_max g /\ 5 <= ip_z_max g).
Proof.
  intros Ha Hb Hc g.
  repeat split;
    try (unfold intercept_lhs; simpl; field; auto);
    try (intros; unfold intercept_lhs, triangle_point; simpl; field; auto);
    simpl;
    try (pose proof (Rmax_l a 4); pose proof (Rmax_l b 4);
         pose proof (Rmax_l c 4); lra);
    pose proof (Rmax_r a 4); pose proof (Rmax_r b 4);
    pose proof (Rmax_r c 4); lra.
Qed.

Lemma intercept_triangle_on_plane_witness :
  let g := make_plane_intercept_form 3 2 4 in
  intercept_lhs 3 2 4 (ip_A g) = 1
  /\ intercept_lhs 3 2 4 (ip_B g) = 1
  /\ intercept_lhs 3 2 4 (ip_C g) = 1
  /\ (forall s t : R, intercept_lhs 3 2 4 (triangle_point g s t) = 1)
  /\ (3 < ip_x_max g /\ 2 < ip_y_max g /\ 4 < ip_z_max g)
  /\ (5 <= ip_x_max g /\ 5 <= ip_y_max g /\ 5 <= ip_z_max g).
Proof.
  apply (intercept_triangle_on_plane 3 2 4); lra.
Defined.

(** ** The surface and the arrow of [make_plane_normal_form] *)

Lemma normal_form_unit_cases (l m n p : R) :
  (mkVec3 l m n = mkVec3 0 0 0
   /\ nf_normal_unit (make_plane_normal_form l m n p) = vdiv (mkVec3 0 0 1) 1)
  \/ (mkVec3 l m n <> mkVec3 0 0 0
      /\ nf_normal_unit (make_plane_normal_form l m n p)
         = vdiv (mkVec3 l m n) (norm (mkVec3 l m n))).
Proof.
  unfold make_plane_normal_form; simpl.
  destruct (Req_dec_T (norm (mkVec3 l m n)) 0) as [Z | NZ].
  - left. split; [ apply norm_zero_iff, Z | reflexivity ].
  - right. split; [ | reflexivity ].
    intros E. apply NZ. apply norm_zero_iff, E.
Qed.

Lemma normal_form_surface_dot (l m n p u v : R) (w : Vec3) :
  let g := make_plane_normal_form l m n p in
  dot w (nf_e1 g) = 0 -> dot w (nf_e2 g) = 0 ->
  dot w (normal_form_plane_point g u v) = p * dot w (nf_normal_unit g).
Proof.
  intros g H1 H2.
  unfold normal_form_plane_point.
  rewrite !dot_vadd_r, !dot_vscale_r, H1, H2.
  change (nf_p_point g) with (vscale p (nf_normal_unit g)).
  rewrite dot_vscale_r. ring.
Qed.

(** Every point of the surface drawn for the normal form satisfies
    normal_unit . x = p; measured with the coefficients as given it
    satisfies l x + m y + n z = p ||(l,m,n)||, so the surface is the plane of
    the displayed equation l x + m y + n z = p only when ||(l,m,n)|| = 1 or
    p = 0. *)
Theorem normal_form_surface_equation (l m n p u v : R) :
  let g := make_plane_normal_form l m n p in
  let q := normal_form_plane_point g u v in
  dot (nf_normal_unit g) q = p
  /\ l * vx q + m * vy q + n * vz q = p * norm (mkVec3 l m n)
  /\ (l * vx q + m * vy q + n * vz q = p <->
      norm (mkVec3 l m n) = 1 \/ p = 0).
Proof.
  intros g q.
  pose proof (normal_form_surface_dot l m n p u v) as S.
  cbv zeta in S. fold g in S. fold q in S.
  destruct (basis_orthogonal (nf_normal_unit g)) as (_ & O1 & O2).
  assert (U : dot (nf_normal_unit g) q = p).
  { rewrite S.
    - rewrite <- norm_sqr. unfold g. rewrite normal_form_unit. ring.
    - rewrite dot_comm. exact O1.
    - rewrite dot_comm. exact O2. }
  assert (E : l * vx q + m * vy q + n * vz q = p * norm (mkVec3 l m n)).
  { change (l * vx q + m * vy q + n * vz q) with (dot (mkVec3 l m n) q).
    destruct (normal_form_unit_cases l m n p) as [[Z _] | [NZ Hu]].
    - rewrite Z, norm_zero_vec. unfold dot; simpl. ring.
    - fold g in Hu. pose proof (norm_pos_nonzero _ NZ) as P.
      rewrite S.
      + rewrite Hu, dot_vdiv_r, <- norm_sqr. field. lra.
      + change (nf_e1 g) with (basis_e1 (nf_normal_unit g)).
        rewrite Hu. apply basis_e1_orth.
      + change (nf_e2 g) with (basis_e2 (nf_normal_unit g)).
        rewrite Hu. apply basis_e2_orth. }
  split; [ exact U | ]. split; [ exact E | ].
  rewrite E. split.
  - intros H. destruct (Req_dec_T p 0) as [Z | NZ]; [ right; exact Z | left ].
    apply (Rmult_eq_reg_l p); [ lra | exact NZ ].
  - intros [H | H]; [ rewrite H; ring | rewrite H; ring ].
Qed.

(** The arrow drawn from the origin to p_point has length |p|, ends on the
    surface (at its centre, u = v = 0) and is perpendicular to both surface
    directions e1 and e2. *)
Theorem normal_form_arrow (l m n p : R) :
  let g := make_plane_normal_form l m n p in
  norm (nf_p_point g) = Rabs p
  /\ nf_p_point g = normal_form_plane_point g 0 0
  /\ dot (nf_p_point g) (nf_e1 g) = 0
  /\ dot (nf_p_point g) (nf_e2 g) = 0.
Proof.
  intros g.
  destruct (basis_orthogonal (nf_normal_unit g)) as (_ & H1 & H2).
  change (nf_p_point g) with (vscale p (nf_normal_unit g)).
  split; [ | split; [ | split ] ].
  - rewrite norm_vscale. unfold g. rewrite normal_form_unit. ring.
  - apply vec3_eq; unfold normal_form_plane_point, vadd, vscale; simpl; ring.
  - rewrite dot_comm, dot_vscale_r.
    change (nf_e1 g) with (basis_e1 (nf_normal_unit g)). rewrite H1. ring.
  - rewrite dot_comm, dot_vscale_r.
    change (nf_e2 g) with (basis_e2 (nf_normal_unit g)). rewrite H2. ring.
Qed.

(** ** The surface and the arrow of [make_plane_general] *)

Lemma guard_nonzero_vec (a b c : R) :
  1e-6 < Rabs a \/ 1e-6 < Rabs b \/ 1e-6 < Rabs c ->
  mkVec3 a b c <> mkVec3 0 0 0.
Proof.
  intros H E. injection E as -> -> ->.
  rewrite Rabs_R0 in H. lra.
Qed.

(** For a non-zero (a,b,c) the normal arrow starts at the centre of the
    shifted surface, has length 1.6 and is perpendicular to both surface
    directions e1 and e2. *)
Theorem general_normal_arrow_perpendicular (a b c d : R) (shift : Vec3) :
  mkVec3 a b c <> mkVec3 0 0 0 ->
  exists g, make_plane_general a b c d = Returned g
    /\ fst (general_normal_arrow shift g) = vadd (plane_point g 0 0) shift
    /\ norm (vsub (snd (general_normal_arrow shift g))
                  (fst (general_normal_arrow shift g))) = 1.6
    /\ dot (vsub (snd (general_normal_arrow shift g))
                 (fst (general_normal_arrow shift g))) (gp_e1 g) = 0
    /\ dot (vsub (snd (general_normal_arrow shift g))
                 (fst (general_normal_arrow shift g))) (gp_e2 g) = 0.
Proof.
  intros NZ.
  destruct (make_plane_general_returns a b c d)
    as (g & Hrun & HN & _ & Hn & _ & He1 & He2).
  assert (V : vsub (snd (general_normal_arrow shift g))
                   (fst (general_normal_arrow shift g))
              = vscale 1.6 (vdiv (mkVec3 a b c) (norm (mkVec3 a b c)))).
  { unfold general_normal_arrow. cbv zeta. rewrite HN.
    apply vec3_eq; unfold vsub, vadd, vscale; simpl; ring. }
  exists g. split; [ exact Hrun | ]. split; [ | split; [ | split ] ].
  - apply vec3_eq; unfold general_normal_arrow, plane_point, vadd, vscale;
      simpl; ring.
  - rewrite V, norm_vscale, norm_normalized by exact NZ.
    rewrite Rabs_right; lra.
  - rewrite V, dot_comm, dot_vscale_r, dot_vdiv_r, dot_comm.
    rewrite He1, Hn, basis_e1_orth. unfold Rdiv; ring.
  - rewrite V, dot_comm, dot_vscale_r, dot_vdiv_r, dot_comm.
    rewrite He2, Hn, basis_e2_orth. unfold Rdiv; ring.
Qed.

Lemma general_normal_arrow_perpendicular_witness :
  exists g, make_plane_general 2 (-1) 1.2 (-1.5) = Returned g
    /\ fst (general_normal_arrow (mkVec3 (-2.2) 0 0) g)
       = vadd (plane_point g 0 0) (mkVec3 (-2.2) 0 0)
    /\ norm (vsub (snd (general_normal_arrow (mkVec3 (-2.2) 0 0) g))
                  (fst (general_normal_arrow (mkVec3 (-2.2) 0 0) g))) = 1.6
    /\ dot (vsub (snd (general_normal_arrow (mkVec3 (-2.2) 0 0) g))
                 (fst (general_normal_arrow (mkVec3 (-2.2) 0 0) g)))
           (gp_e1 g) = 0
    /\ dot (vsub (snd (general_normal_arrow (mkVec3 (-2.2) 0 0) g))
                 (fst (general_normal_arrow (mkVec3 (-2.2) 0 0) g)))
           (gp_e2 g) = 0.
Proof.
  apply (general_normal_arrow_perpendicular 2 (-1) 1.2 (-1.5)).
  intros E. apply (f_equal vx) in E. simpl in E. lra.
Defined.

Lemma near_unit_sqr_pos (v : Vec3) : near_unit v -> 0 < dot v v.
Proof.
  intros [L _]. rewrite <- norm_sqr. nra.
Qed.

Lemma dot_plane_point (g : GeneralPlane) (u v : R) (w : Vec3) :
  dot w (plane_point g u v)
  = dot w (gp_point_on_plane g) + u * 3 * dot w (gp_e1 g)
    + v * 3 * dot w (gp_e2 g).
Proof.
  unfold plane_point. rewrite !dot_vadd_r, !dot_vscale_r. ring.
Qed.

(** When a coefficient passes the 1e-6 guard the surface is a genuine
    two-parameter patch: different (u,v) give different points. *)
Theorem plane_point_injective (a b c d : R) :
  1e-6 < Rabs a \/ 1e-6 < Rabs b \/ 1e-6 < Rabs c ->
  exists g, make_plane_general a b c d = Returned g
    /\ forall u v u' v' : R,
         plane_point g u v = plane_point g u' v' -> u = u' /\ v = v'.
Proof.
  intros G.
  destruct (make_plane_general_returns a b c d)
    as (g & Hrun & _ & _ & Hn & _ & He1 & He2).
  pose proof (general_n_near_unit a b c G) as B. rewrite <- Hn in B.
  destruct (basis_near_unit (gp_n g)) as [U1 U2]; [ lra | ].
  destruct (basis_orthogonal (gp_n g)) as (O12 & _ & _).
  rewrite <- He1 in U1, O12. rewrite <- He2 in U2, O12.
  apply near_unit_sqr_pos in U1. apply near_unit_sqr_pos in U2.
  exists g. split; [ exact Hrun | ].
  intros u v u' v' E.
  pose proof (f_equal (dot (gp_e1 g)) E) as E1.
  pose proof (f_equal (dot (gp_e2 g)) E) as E2.
  rewrite !dot_plane_point in E1, E2.
  rewrite (dot_comm (gp_e2 g) (gp_e1 g)), O12 in E2.
  rewrite O12 in E1.
  split; nra.
Qed.

Lemma plane_point_injective_witness :
  exists g, make_plane_general 2 (-1) 1.2 (-1.5) = Returned g
    /\ forall u v u' v' : R,
         plane_point g u v = plane_point g u' v' -> u = u' /\ v = v'.
Proof.
  apply (plane_point_injective 2 (-1) 1.2 (-1.5)).
  left. apply Rabs_guard_pos. lra.
Defined.

(** ** The point on the plane of the distance scene *)

(** The selection of lines 580-585 raises ZeroDivisionError exactly when
    |a| <= 1e-6, |b| <= 1e-6 and c = 0; in every other case it returns a
    point that satisfies a x + b y + c z + d = 0, also for a c of magnitude
    at most 1e-6, where [make_plane_general] returns the origin. *)
Theorem distance_p0_cases (a b c d : R) :
  (distance_p0 a b c d = Raised ZeroDivisionError <->
   ~ 1e-6 < Rabs a /\ ~ 1e-6 < Rabs b /\ c = 0)
  /\ (forall q, distance_p0 a b c d = Returned q -> plane_lhs a b c d q = 0)
  /\ (~ 1e-6 < Rabs a -> ~ 1e-6 < Rabs b -> c <> 0 ->
      distance_p0 a b c d = Returned (mkVec3 0 0 (- d / c)))
  /\ (1e-6 < Rabs a \/ 1e-6 < Rabs b \/ 1e-6 < Rabs c ->
      distance_p0 a b c d = general_point_on_plane a b c d).
Proof.
  unfold distance_p0, general_point_on_plane.
  destruct (Rlt_dec 1e-6 (Rabs a)) as [Ha | Ha].
  { rewrite py_div_guarded by exact Ha. simpl.
    pose proof (Rabs_guard_nonzero 1e-6 a ltac:(lra) Ha) as Na.
    split; [ split; [ discriminate | tauto ] | ].
    split; [ | split; [ tauto | reflexivity ] ].
    intros q E. injection E as <-. unfold plane_lhs; simpl. field. exact Na. }
  destruct (Rlt_dec 1e-6 (Rabs b)) as [Hb | Hb].
  { rewrite py_div_guarded by exact Hb. simpl.
    pose proof (Rabs_guard_nonzero 1e-6 b ltac:(lra) Hb) as Nb.
    split; [ split; [ discriminate | tauto ] | ].
    split; [ | split; [ tauto | reflexivity ] ].
    intros q E. injection E as <-. unfold plane_lhs; simpl. field. exact Nb. }
  unfold py_div. destruct (Req_dec_T c 0) as [Zc | Nc]; simpl.
  - split; [ split; [ tauto | reflexivity ] | ].
    split; [ discriminate | ]. split; [ tauto | ].
    intros [H | [H | H]]; try contradiction.
    rewrite Zc, Rabs_R0 in H. lra.
  - split; [ split; [ discriminate | tauto ] | ].
    split; [ | split; [ reflexivity | ] ].
    + intros q E. injection E as <-. unfold plane_lhs; simpl. field. exact Nc.
    + intros [H | [H | H]]; try contradiction.
      destruct (Rlt_dec 1e-6 (Rabs c)); [ | contradiction ].
      destruct (Req_dec_T c 0); [ contradiction | reflexivity ].
Qed.

Lemma distance_p0_cases_witness :
  distance_p0 0 0 0 1 = Raised ZeroDivisionError
  /\ distance_p0 0 0 1e-7 1 = Returned (mkVec3 0 0 (- 1 / 1e-7)).
Proof.
  split.
  - apply (proj1 (distance_p0_cases 0 0 0 1)).
    rewrite Rabs_R0. repeat split; lra.
  - apply (proj1 (proj2 (proj2 (distance_p0_cases 0 0 1e-7 1))));
      rewrite ?Rabs_R0; lra.
Defined.

(** ** The angle of [make_angle_between_planes_example] *)

Lemma cauchy_schwarz_sqr (u v : Vec3) :
  dot u v * dot u v <= dot u u * dot v v.
Proof.
  pose proof (dot_self_nonneg (cross u v)) as H.
  rewrite lagrange in H. lra.
Qed.

Lemma cauchy_schwarz (u v : Vec3) : Rabs (dot u v) <= norm u * norm v.
Proof.
  apply Rabs_le_of_sqr.
  - apply Rmult_le_pos; apply norm_nonneg.
  - replace (norm u * norm v * (norm u * norm v))
      with ((norm u * norm u) * (norm v * norm v)) by ring.
    rewrite !norm_sqr. apply cauchy_schwarz_sqr.
Qed.

Lemma clip_id (x : R) : -1 <= x <= 1 -> clip x (-1) 1 = x.
Proof.
  intros H. unfold clip, Rmin, Rmax.
  repeat (destruct (Rle_dec _ _)); lra.
Qed.

Lemma unit_dot (n1 n2 : Vec3) :
  dot (vdiv n1 (norm n1)) (vdiv n2 (norm n2))
  = dot n1 n2 * / (norm n1 * norm n2).
Proof.
  destruct (Req_dec_T (norm n1) 0) as [Z1 | N1].
  { rewrite Z1. unfold dot, vdiv, Rdiv; simpl.
    rewrite Rmult_0_l, !Rinv_0. ring. }
  destruct (Req_dec_T (norm n2) 0) as [Z2 | N2].
  { rewrite Z2. unfold dot, vdiv, Rdiv; simpl.
    rewrite Rmult_0_r, !Rinv_0. ring. }
  unfold dot, vdiv; simpl. field. split; assumption.
Qed.

Lemma unit_dot_range (n1 n2 : Vec3) :
  n1 <> mkVec3 0 0 0 -> n2 <> mkVec3 0 0 0 ->
  -1 <= dot (vdiv n1 (norm n1)) (vdiv n2 (norm n2)) <= 1.
Proof.
  intros H1 H2.
  pose proof (norm_pos_nonzero _ H1) as P1.
  pose proof (norm_pos_nonzero _ H2) as P2.
  pose proof (cauchy_schwarz n1 n2) as CS.
  assert (P : 0 < norm n1 * norm n2) by nra.
  rewrite unit_dot.
  assert (B : - (norm n1 * norm n2) <= dot n1 n2 <= norm n1 * norm n2).
  { unfold Rabs in CS. destruct (Rcase_abs (dot n1 n2)); lra. }
  pose proof (Rinv_0_lt_compat _ P) as I.
  assert (K : norm n1 * norm n2 * / (norm n1 * norm n2) = 1)
    by (apply Rinv_r; lra).
  split; nra.
Qed.

(** For non-zero normals the clip never acts and the computed angle
    satisfies the formula the scene displays,
    cos(theta) = n1 . n2 / (||n1|| ||n2||), with theta in [0, pi]. *)
Theorem planes_theta_cosine (n1 n2 : Vec3) :
  n1 <> mkVec3 0 0 0 -> n2 <> mkVec3 0 0 0 ->
  0 <= planes_theta n1 n2 <= PI
  /\ cos (planes_theta n1 n2) = dot n1 n2 / (norm n1 * norm n2).
Proof.
  intros H1 H2.
  pose proof (unit_dot_range n1 n2 H1 H2) as B.
  unfold planes_theta. cbv zeta.
  split; [ apply acos_bound | ].
  rewrite clip_id by exact B.
  rewrite cos_acos by exact B.
  apply unit_dot.
Qed.

Lemma planes_theta_cosine_witness :
  0 <= planes_theta (mkVec3 1 0 0) (mkVec3 0 2 0) <= PI
  /\ cos (planes_theta (mkVec3 1 0 0) (mkVec3 0 2 0))
     = dot (mkVec3 1 0 0) (mkVec3 0 2 0)
       / (norm (mkVec3 1 0 0) * norm (mkVec3 0 2 0)).
Proof.
  apply (planes_theta_cosine (mkVec3 1 0 0) (mkVec3 0 2 0)).
  - intros E. apply (f_equal vx) in E. simpl in E. lra.
  - intros E. apply (f_equal vy) in E. simpl in E. lra.
Defined.

Lemma vneg_vneg_unit_dot (u v : Vec3) (k1 k2 : R) :
  dot (vdiv (vneg u) k1) (vdiv (vneg v) k2) = dot (vdiv u k1) (vdiv v k2).
Proof. unfold dot, vdiv, vneg, Rdiv; simpl; ring. Qed.

(** For non-zero normals the computed angle does not depend on the order of
    the two planes; it turns into its supplement when one normal is negated
    and is unchanged when both are. *)
Theorem planes_theta_symmetries (n1 n2 : Vec3) :
  n1 <> mkVec3 0 0 0 -> n2 <> mkVec3 0 0 0 ->
  planes_theta n1 n2 = planes_theta n2 n1
  /\ planes_theta n1 (vneg n2) = PI - planes_theta n1 n2
  /\ planes_theta (vneg n1) n2 = PI - planes_theta n1 n2
  /\ planes_theta (vneg n1) (vneg n2) = planes_theta n1 n2.
Proof.
  intros _ _.
  split; [ | split; [ | split ] ].
  - unfold planes_theta. cbv zeta. rewrite dot_comm. reflexivity.
  - apply planes_theta_vneg_r.
  - apply planes_theta_vneg_l.
  - unfold planes_theta. cbv zeta.
    rewrite !norm_vneg, vneg_vneg_unit_dot. reflexivity.
Qed.

Lemma planes_theta_symmetries_witness :
  planes_theta example_n1 example_n2 = planes_theta example_n2 example_n1
  /\ planes_theta example_n1 (vneg example_n2)
     = PI - planes_theta example_n1 example_n2
  /\ planes_theta (vneg example_n1) example_n2
     = PI - planes_theta example_n1 example_n2
  /\ planes_theta (vneg example_n1) (vneg example_n2)
     = planes_theta example_n1 example_n2.
Proof.
  apply (planes_theta_symmetries example_n1 example_n2).
  - intros E. apply (f_equal vx) in E. simpl in E. lra.
  - intros E. apply (f_equal vx) in E. simpl in E. lra.
Defined.

Lemma normalize_vscale (k : R) (n : Vec3) :
  0 < k -> n <> mkVec3 0 0 0 ->
  vdiv (vscale k n) (norm (vscale k n)) = vdiv n (norm n).
Proof.
  intros Hk Hn. pose proof (norm_pos_nonzero _ Hn) as P.
  rewrite norm_vscale, Rabs_right by lra.
  apply vec3_eq; unfold vdiv, vscale; simpl; field; lra.
Qed.

(** The computed angle depends only on the directions of the normals:
    rescaling either by a positive factor leaves it unchanged; a plane makes
    the angle 0 with itself and with any plane whose normal is a positive
    multiple of its own. *)
Theorem planes_theta_scaling (n1 n2 : Vec3) (k1 k2 : R) :
  n1 <> mkVec3 0 0 0 -> n2 <> mkVec3 0 0 0 -> 0 < k1 -> 0 < k2 ->
  planes_theta (vscale k1 n1) (vscale k2 n2) = planes_theta n1 n2
  /\ planes_theta n1 n1 = 0
  /\ planes_theta n1 (vscale k1 n1) = 0.
Proof.
  intros H1 H2 K1 K2.
  assert (S : planes_theta n1 n1 = 0).
  { unfold planes_theta. cbv zeta.
    pose proof (norm_pos_nonzero _ H1) as P.
    rewrite unit_dot, <- norm_sqr.
    replace (norm n1 * norm n1 * / (norm n1 * norm n1)) with 1
      by (field; lra).
    rewrite clip_id by lra. apply acos_1. }
  split; [ | split ].
  - unfold planes_theta. cbv zeta.
    rewrite !normalize_vscale by assumption. reflexivity.
  - exact S.
  - transitivity (planes_theta n1 n1); [ | exact S ].
    unfold planes_theta. cbv zeta.
    rewrite normalize_vscale by assumption. reflexivity.
Qed.

Lemma planes_theta_scaling_witness :
  planes_theta (vscale 2 (mkVec3 1 0 0)) (vscale 3 (mkVec3 0 1 0))
  = planes_theta (mkVec3 1 0 0) (mkVec3 0 1 0)
  /\ planes_theta (mkVec3 1 0 0) (mkVec3 1 0 0) = 0
  /\ planes_theta (mkVec3 1 0 0) (vscale 2 (mkVec3 1 0 0)) = 0.
Proof.
  apply (planes_theta_scaling (mkVec3 1 0 0) (mkVec3 0 1 0) 2 3); try lra.
  - intros E. apply (f_equal vx) in E. simpl in E. lra.
  - intros E. apply (f_equal vy) in E. simpl in E. lra.
Defined.

(** ** The frames of the example scenes *)

Lemma example_basis_orthogonal (n : Vec3) :
  pairwise_orthogonal n (example_e1 n) (example_e2 n).
Proof.
  assert (H1 : dot (example_e1 n) n = 0).
  { unfold example_e1. cbv zeta.
    rewrite dot_vdiv_l, (dot_comm _ n), dot_cross_l. unfold Rdiv; ring. }
  unfold pairwise_orthogonal. split; [ | split ].
  - unfold example_e2. apply dot_cross_r.
  - exact H1.
  - unfold example_e2. rewrite dot_comm. apply dot_cross_l.
Qed.

Lemma example_basis_unit (n : Vec3) :
  norm n = 1 -> norm (example_e1 n) = 1 /\ norm (example_e2 n) = 1.
Proof.
  intros U.
  assert (L : 0.4 <= norm (cross n (arbitrary_axis n)))
    by (apply cross_arbitrary_long; lra).
  assert (E1 : norm (example_e1 n) = 1).
  { unfold example_e1. cbv zeta. rewrite norm_vdiv by lra. field. lra. }
  split; [ exact E1 | ].
  unfold example_e2. rewrite norm_cross_orth.
  - rewrite U, E1. ring.
  - destruct (example_basis_orthogonal n) as (_ & H & _).
    rewrite dot_comm. exact H.
Qed.

(** In the example scenes, which normalise without the 1e-12, every
    non-zero normal gives an exactly orthonormal right-handed frame
    (n_unit, e1, e2), and every point of the surface drawn through p0 lies on
    the plane through p0 with that normal. *)
Theorem example_frame_orthonormal (n p0 : Vec3) (k : R) :
  n <> mkVec3 0 0 0 ->
  let n_unit := vdiv n (norm n) in
  norm n_unit = 1
  /\ norm (example_e1 n_unit) = 1
  /\ norm (example_e2 n_unit) = 1
  /\ pairwise_orthogonal n_unit (example_e1 n_unit) (example_e2 n_unit)
  /\ example_e2 n_unit = cross n_unit (example_e1 n_unit)
  /\ forall u v : R, dot n (vsub (example_plane n p0 k u v) p0) = 0.
Proof.
  intros NZ n_unit.
  assert (U : norm n_unit = 1) by (apply norm_normalized, NZ).
  destruct (example_basis_unit n_unit U) as [U1 U2].
  destruct (example_basis_orthogonal n_unit) as (O12 & O1 & O2).
  split; [ exact U | ]. split; [ exact U1 | ]. split; [ exact U2 | ].
  split; [ repeat split; assumption | ]. split; [ reflexivity | ].
  intros u v.
  assert (D : forall w, dot w n_unit = 0 -> dot n w = 0).
  { intros w Hw. unfold n_unit in Hw. rewrite dot_vdiv_r in Hw.
    pose proof (norm_pos_nonzero _ NZ) as P.
    rewrite dot_comm.
    apply (Rmult_eq_reg_r (/ norm n)).
    - rewrite Rmult_0_l. exact Hw.
    - apply Rinv_neq_0_compat. lra. }
  replace (vsub (example_plane n p0 k u v) p0)
    with (vadd (vscale (k * u) (example_e1 n_unit))
               (vscale (k * v) (example_e2 n_unit))).
  - rewrite dot_vadd_r, !dot_vscale_r, (D _ O1), (D _ O2). ring.
  - apply vec3_eq; unfold example_plane, vsub, vadd, vscale; simpl;
      fold n_unit; ring.
Qed.

Lemma example_frame_orthonormal_witness :
  let n_unit := vdiv example_n1 (norm example_n1) in
  norm n_unit = 1
  /\ norm (example_e1 n_unit) = 1
  /\ norm (example_e2 n_unit) = 1
  /\ pairwise_orthogonal n_unit (example_e1 n_unit) (example_e2 n_unit)
  /\ example_e2 n_unit = cross n_unit (example_e1 n_unit)
  /\ forall u v : R,
       dot example_n1
           (vsub (example_plane example_n1 (mkVec3 0.8 0.2 1.0) 2.7 u v)
                 (mkVec3 0.8 0.2 1.0)) = 0.
Proof.
  apply (example_frame_orthonormal example_n1 (mkVec3 0.8 0.2 1.0) 2.7).
  intros E. apply (f_equal vx) in E. simpl in E. lra.
Defined.

(** ** The line and the plane of [make_line_plane_angle_example] *)

Lemma dot_line_point (normal p0 ls v : Vec3) (s : R) :
  dot normal (vsub (vadd ls (vscale s v)) p0)
  = dot normal (vsub ls p0) + s * dot normal v.
Proof. unfold dot, vsub, vadd, vscale; simpl; ring. Qed.

(** When the guard passes, the returned point is the only point of the line
    on the plane. *)
Theorem line_plane_intersection_unique (normal p0 ls v : Vec3) (s : R) :
  1e-6 < Rabs (dot normal v) ->
  dot normal (vsub (vadd ls (vscale s v)) p0) = 0 ->
  s = - dot normal (vsub ls p0) / dot normal v
  /\ line_plane_intersect normal p0 ls v = Returned (vadd ls (vscale s v)).
Proof.
  intros G H.
  pose proof (Rabs_guard_nonzero 1e-6 _ ltac:(lra) G) as NZ.
  rewrite dot_line_point in H.
  assert (S : s = - dot normal (vsub ls p0) / dot normal v).
  { apply (Rmult_eq_reg_r (dot normal v)); [ | exact NZ ].
    unfold Rdiv. rewrite Rmult_assoc, Rinv_l by exact NZ. lra. }
  split; [ exact S | ].
  unfold line_plane_intersect. cbv zeta.
  destruct (Rlt_dec 1e-6 (Rabs (dot normal v))); [ | contradiction ].
  rewrite <- S. reflexivity.
Qed.

Lemma line_plane_intersection_unique_witness :
  3 = - dot (mkVec3 0 0 1) (vsub (mkVec3 0 0 3) (mkVec3 0 0 0))
        / dot (mkVec3 0 0 1) (mkVec3 1 0 (-1))
  /\ line_plane_intersect (mkVec3 0 0 1) (mkVec3 0 0 0)
                          (mkVec3 0 0 3) (mkVec3 1 0 (-1))
     = Returned (vadd (mkVec3 0 0 3) (vscale 3 (mkVec3 1 0 (-1)))).
Proof.
  apply (line_plane_intersection_unique (mkVec3 0 0 1) (mkVec3 0 0 0)
           (mkVec3 0 0 3) (mkVec3 1 0 (-1)) 3).
  - replace (dot (mkVec3 0 0 1) (mkVec3 1 0 (-1))) with (-1)
      by (unfold dot; simpl; ring).
    rewrite Rabs_left; lra.
  - unfold dot, vsub, vadd, vscale; simpl; ring.
Defined.

(** When normal . v = 0 the computation returns line_start, and the whole
    line is at the same signed offset from the plane as line_start: the
    returned point is on the plane if and only if every point of the line
    is. *)
Theorem line_plane_parallel_fallback (normal p0 ls v : Vec3) :
  dot normal v = 0 ->
  line_plane_intersect normal p0 ls v = Returned ls
  /\ (forall s : R,
        dot normal (vsub (vadd ls (vscale s v)) p0)
        = dot normal (vsub ls p0))
  /\ (dot normal (vsub ls p0) = 0 <->
      forall s : R, dot normal (vsub (vadd ls (vscale s v)) p0) = 0).
Proof.
  intros Z.
  assert (A : forall s, dot normal (vsub (vadd ls (vscale s v)) p0)
                        = dot normal (vsub ls p0)).
  { intros s. rewrite dot_line_point, Z. ring. }
  split; [ | split; [ exact A | ] ].
  - unfold line_plane_intersect. cbv zeta. rewrite Z.
    destruct (Rlt_dec 1e-6 (Rabs 0)) as [G | _]; [ | reflexivity ].
    exfalso. exact (Rabs_zero_below_guard G).
  - split.
    + intros H s. rewrite A. exact H.
    + intros H. rewrite <- (A 0). apply H.
Qed.

Lemma line_plane_parallel_fallback_witness :
  line_plane_intersect (mkVec3 0 0 1) (mkVec3 0 0 0)
                       (mkVec3 0 0 1) (mkVec3 1 0 0)
  = Returned (mkVec3 0 0 1).
Proof.
  apply (line_plane_parallel_fallback (mkVec3 0 0 1) (mkVec3 0 0 0)
           (mkVec3 0 0 1) (mkVec3 1 0 0)).
  unfold dot; simpl; ring.
Defined.

(** ** The projection of the line's direction *)

Lemma v_proj_alt (normal v : Vec3) :
  normal <> mkVec3 0 0 0 ->
  v_proj normal v
  = vsub v (vscale (dot normal v / dot normal normal) normal).
Proof.
  intros NZ. pose proof (norm_pos_nonzero _ NZ) as P.
  unfold v_proj. cbv zeta. rewrite dot_vdiv_l, <- (norm_sqr normal).
  set (r := norm normal) in *.
  apply vec3_eq; unfold vsub, vscale, vdiv; simpl; field; lra.
Qed.

Lemma v_proj_sqr (normal v : Vec3) :
  normal <> mkVec3 0 0 0 ->
  dot (v_proj normal v) (v_proj normal v)
  = dot (cross normal v) (cross normal v) / dot normal normal.
Proof.
  intros NZ. rewrite v_proj_alt by exact NZ.
  assert (D : dot normal normal <> 0).
  { pose proof (norm_pos_nonzero _ NZ). rewrite <- norm_sqr. nra. }
  unfold dot, cross, vsub, vscale in *; simpl in *. field. exact D.
Qed.

Lemma v_proj_facts (normal v : Vec3) :
  normal <> mkVec3 0 0 0 ->
  dot normal (v_proj normal v) = 0
  /\ norm (v_proj normal v) = norm (cross normal v) / norm normal
  /\ (v_proj normal v = mkVec3 0 0 0 <-> cross normal v = mkVec3 0 0 0).
Proof.
  intros NZ. pose proof (norm_pos_nonzero _ NZ) as P.
  assert (D : 0 < dot normal normal) by (rewrite <- norm_sqr; nra).
  assert (N : norm (v_proj normal v) = norm (cross normal v) / norm normal).
  { unfold norm at 1. rewrite v_proj_sqr by exact NZ.
    rewrite sqrt_div_alt by exact D. reflexivity. }
  split; [ | split; [ exact N | ] ].
  - rewrite v_proj_alt by exact NZ.
    unfold dot, vsub, vscale in *; simpl in *. field. lra.
  - rewrite <- !norm_zero_iff, N. split.
    + intros H. apply (Rmult_eq_reg_r (/ norm normal)).
      * rewrite Rmult_0_l. exact H.
      * apply Rinv_neq_0_compat. lra.
    + intros ->. unfold Rdiv. ring.
Qed.

(** For a non-zero normal the projected direction is perpendicular to the
    normal, has length ||normal x v|| / ||normal||, and vanishes exactly when
    v is parallel to the normal. *)
Theorem v_proj_in_plane (normal v : Vec3) :
  normal <> mkVec3 0 0 0 ->
  dot normal (v_proj normal v) = 0
  /\ norm (v_proj normal v) = norm (cross normal v) / norm normal
  /\ (v_proj normal v = mkVec3 0 0 0 <-> cross normal v = mkVec3 0 0 0).
Proof. intros NZ. apply v_proj_facts, NZ. Qed.

Lemma v_proj_in_plane_witness :
  dot example_normal (v_proj example_normal example_v) = 0
  /\ norm (v_proj example_normal example_v)
     = norm (cross example_normal example_v) / norm example_normal
  /\ (v_proj example_normal example_v = mkVec3 0 0 0 <->
      cross example_normal example_v = mkVec3 0 0 0).
Proof.
  apply (v_proj_in_plane example_normal example_v).
  intros E. apply (f_equal vz) in E. simpl in E. lra.
Defined.

(** When v is not parallel to the non-zero normal, the projection arrow has
    length 1.6 and is perpendicular to the normal. *)
Theorem proj_arrow_in_plane (normal v : Vec3) :
  normal <> mkVec3 0 0 0 -> cross normal v <> mkVec3 0 0 0 ->
  norm (proj_arrow_vector normal v) = 1.6
  /\ dot normal (proj_arrow_vector normal v) = 0.
Proof.
  intros NZ NP.
  destruct (v_proj_facts normal v NZ) as (O & _ & Z).
  assert (PZ : v_proj normal v <> mkVec3 0 0 0) by tauto.
  unfold proj_arrow_vector. split.
  - rewrite norm_vscale, norm_normalized by exact PZ.
    rewrite Rabs_right; lra.
  - rewrite dot_vscale_r, dot_vdiv_r, O. unfold Rdiv; ring.
Qed.

Lemma proj_arrow_in_plane_witness :
  norm (proj_arrow_vector (mkVec3 0 0 1) (mkVec3 1 0 1)) = 1.6
  /\ dot (mkVec3 0 0 1) (proj_arrow_vector (mkVec3 0 0 1) (mkVec3 1 0 1)) = 0.
Proof.
  apply (proj_arrow_in_plane (mkVec3 0 0 1) (mkVec3 1 0 1)).
  - intros E. apply (f_equal vz) in E. simpl in E. lra.
  - intros E. apply (f_equal vy) in E. unfold cross in E. simpl in E. lra.
Defined.

(** ** The foot and the distances of the distance scene *)

Lemma denom_nonneg (a b c : R) : 0 <= a * a + b * b + c * c.
Proof. nra. Qed.



(** The foot Q differs from P by a multiple of the normal, but because of
    the 1e-12 in the factor it is on the plane only when P is: its residual
    a x + b y + c z + d is numerator * 1e-12 / (denom + 1e-12). *)
Theorem foot_residual (a b c d : R) (P : Vec3) :
  let r := point_to_plane a b c d P in
  vsub P (de_Q r)
  = vscale (de_numerator r / (de_denom r + 1e-12)) (mkVec3 a b c)
  /\ cross (vsub P (de_Q r)) (mkVec3 a b c) = mkVec3 0 0 0
  /\ plane_lhs a b c d (de_Q r)
     = de_numerator r * (1e-12 / (de_denom r + 1e-12))
  /\ (plane_lhs a b c d (de_Q r) = 0 <-> plane_lhs a b c d P = 0).
Proof.
  intros r. pose proof (denom_nonneg a b c) as DN.
  assert (R3 : plane_lhs a b c d (de_Q r)
               = de_numerator r * (1e-12 / (de_denom r + 1e-12))).
  { unfold r, point_to_plane, plane_lhs, vsub, vscale; simpl. field. lra. }
  split; [ | split; [ | split; [ exact R3 | ] ] ].
  - apply vec3_eq; unfold r, point_to_plane, vsub, vscale; simpl; ring.
  - apply vec3_eq; unfold r, point_to_plane, cross, vsub, vscale; simpl; ring.
  - rewrite R3.
    change (de_numerator r) with (plane_lhs a b c d P).
    change (de_denom r) with (a * a + b * b + c * c).
    assert (K : 0 < 1e-12 / (a * a + b * b + c * c + 1e-12)).
    { apply Rdiv_lt_0_compat; lra. }
    split; intros H; nra.
Qed.

(** For a non-zero (a,b,c) the displayed value is the distance from P to the
    plane: it is not negative, no point of the plane is closer to P, and it
    is 0 exactly when P is on the plane. *)
Theorem displayed_distance_minimal (a b c d : R) (P : Vec3) :
  mkVec3 a b c <> mkVec3 0 0 0 ->
  let r := point_to_plane a b c d P in
  0 <= de_value r
  /\ (forall X : Vec3, plane_lhs a b c d X = 0 -> de_value r <= norm (vsub P X))
  /\ (de_value r = 0 <-> plane_lhs a b c d P = 0).
Proof.
  intros NZ r. pose proof (norm_pos_nonzero _ NZ) as PN.
  assert (V : de_value r = Rabs (plane_lhs a b c d P) / norm (mkVec3 a b c))
    by reflexivity.
  assert (I : 0 < / norm (mkVec3 a b c)) by (apply Rinv_0_lt_compat, PN).
  pose proof (Rabs_pos (plane_lhs a b c d P)) as AP.
  rewrite V. unfold Rdiv. split; [ nra | split ].
  - intros X HX.
    assert (E : plane_lhs a b c d P = dot (mkVec3 a b c) (vsub P X)).
    { unfold plane_lhs in *. unfold dot, vsub; simpl. lra. }
    rewrite E. pose proof (cauchy_schwarz (mkVec3 a b c) (vsub P X)) as CS.
    apply (Rmult_le_reg_r (norm (mkVec3 a b c))); [ exact PN | ].
    rewrite Rmult_assoc, Rinv_l by lra. lra.
  - split.
    + intros H. apply Rmult_integral in H. destruct H as [H | H]; [ | lra ].
      unfold Rabs in H. destruct (Rcase_abs _); lra.
    + intros ->. rewrite Rabs_R0. ring.
Qed.

Lemma displayed_distance_minimal_witness :
  let r := point_to_plane 1.2 (-0.6) 0.8 (-1.0) (mkVec3 2.2 1.1 1.8) in
  0 <= de_value r
  /\ (forall X : Vec3, plane_lhs 1.2 (-0.6) 0.8 (-1.0) X = 0 ->
        de_value r <= norm (vsub (mkVec3 2.2 1.1 1.8) X))
  /\ (de_value r = 0 <->
      plane_lhs 1.2 (-0.6) 0.8 (-1.0) (mkVec3 2.2 1.1 1.8) = 0).
Proof.
  apply (displayed_distance_minimal 1.2 (-0.6) 0.8 (-1.0)).
  intros E. apply (f_equal vx) in E. simpl in E. lra.
Defined.



(** ** Colours of different variables *)

Lemma dict_getitem_in (tbl : list (string * Color)) (key : string) (v : Color) :
  dict_getitem tbl key = Returned v -> In (key, v) tbl.
Proof.
  unfold dict_getitem. destruct (dict_find tbl key) eqn:F; [ | discriminate ].
  intros E. injection E as ->. apply dict_find_some_in, F.
Qed.

(** No two variables share a colour, and the yellow used for normals and
    angle marks is no variable's colour. *)
Theorem var_colors_injective (t1 t2 : string) (col : Color) :
  dict_getitem VAR_COLORS t1 = Returned col ->
  dict_getitem VAR_COLORS t2 = Returned col ->
  t1 = t2 /\ col <> YELLOW.
Proof.
  intros H1 H2.
  apply dict_getitem_in in H1. apply dict_getitem_in in H2.
  simpl in H1, H2.
  repeat (destruct H1 as [H1 | H1]; [ injection H1 as <- <- | ]);
    try contradiction;
    repeat (destruct H2 as [H2 | H2];
            [ try discriminate H2; injection H2 as <- | ]);
    try contradiction;
    (split; [ reflexivity | discriminate ]).
Qed.

Lemma var_colors_injective_witness :
  "p"%string = "p"%string /\ GOLD <> YELLOW.
Proof.
  apply (var_colors_injective "p" "p" GOLD); reflexivity.
Defined.

(** ** Degenerate inputs *)

(** For l = m = n = 0 the normal form falls back to the normal (0,0,1): the
    point on the plane is (0,0,p) and the whole surface lies in the
    horizontal plane z = p. *)
Theorem normal_form_zero_fallback (p u v : R) :
  let g := make_plane_normal_form 0 0 0 p in
  nf_normal_unit g = mkVec3 0 0 1
  /\ nf_p_point g = mkVec3 0 0 p
  /\ vz (normal_form_plane_point g u v) = p.
Proof.
  intros g.
  assert (U : nf_normal_unit g = mkVec3 0 0 1).
  { destruct (normal_form_unit_cases 0 0 0 p) as [[_ H] | [H _]].
    - fold g in H. rewrite H. apply vec3_eq; unfold vdiv; simpl; lra.
    - exfalso. apply H. reflexivity. }
  split; [ exact U | ]. split.
  - change (nf_p_point g) with (vscale p (nf_normal_unit g)).
    rewrite U. apply vec3_eq; unfold vscale; simpl; ring.
  - destruct (basis_orthogonal (nf_normal_unit g)) as (_ & O1 & O2).
    pose proof (normal_form_surface_dot 0 0 0 p u v (nf_normal_unit g)) as S.
    cbv zeta in S. fold g in S.
    rewrite dot_comm in O1. rewrite dot_comm in O2.
    specialize (S O1 O2). rewrite U in S.
    remember (normal_form_plane_point g u v) as q.
    unfold dot in S; simpl in S. lra.
Qed.

(** For a = b = c = 0 [make_plane_general] still returns, but its surface
    collapses to the single point (0,0,0), whatever d is. *)
Theorem zero_normal_surface_collapses (d u v : R) :
  exists g, make_plane_general 0 0 0 d = Returned g
    /\ gp_n g = mkVec3 0 0 0
    /\ plane_point g u v = mkVec3 0 0 0.
Proof.
  destruct (make_plane_general_returns 0 0 0 d)
    as (g & Hrun & _ & Hpt & Hn & _ & He1 & He2).
  assert (N : gp_n g = mkVec3 0 0 0).
  { rewrite Hn. apply vdiv_zero_vec. }
  exists g. split; [ exact Hrun | ]. split; [ exact N | ].
  unfold plane_point. rewrite He2, He1, N.
  unfold basis_e2, basis_e1. cbv zeta.
  rewrite !cross_zero_l, vdiv_zero_vec, Hpt.
  rewrite intercept_point_below_guard by (rewrite norm_zero_vec; lra).
  apply vec3_eq; unfold vadd, vscale; simpl; ring.
Qed.
